(** * PasswordChecker: a shallow embedding of [password_checker.py]

    The development follows the source file top to bottom: the configuration
    constants, the [PasswordAnalyzer] class with its loader
    [_load_common_passwords], [calculate_entropy], [check_patterns] and
    [analyze], and then the properties of the scoring engine.

    Conventions of the embedding.
    - A Python [str] is a sequence of Unicode code points: [list N].
    - A Python [int] is a [Z].
    - A float is an IEEE 754 double, held by its exact value
      [mantissa * 2 ^ exponent]; [int * float] and [round(_, 2)] round as
      CPython does, to the nearest, ties to even.  The entropy, which
      [round(_, 2)] has brought to two decimal places, is held as the integer
      number of hundredths of a bit.
    - Code that can raise returns a [result]; [subscript] raises [KeyError]
      and [math.log2] raises [ValueError] outside its domain, as in Python.
    - [analyze] is given twice: as the value it returns, a function of the
      password and of [self.common_passwords], and statement by statement
      over the store of mutable objects ([analyze_m]); the second refines
      to the first.
    - [str.lower] and [str.strip] belong to the Unicode tables of the Python
      runtime; they are parameters of the development, instantiated with
      their ASCII restrictions for the closed examples. *)

From Stdlib Require Import ZArith NArith List Lia String Ascii Bool Floats.
From stdpp Require Import base decidable countable gmap strings pretty list.

Local Open Scope Z_scope.

(** ** Python values *)

Definition str := list N.

(** A source literal, as code points (the literals of the file are ASCII). *)
Fixpoint lit (s : string) : str :=
  match s with
  | EmptyString => []
  | String a s' => N_of_ascii a :: lit s'
  end.

Definition len (s : str) : Z := Z.of_nat (length s).

(** [sub in s] on strings: [sub] occurs as a contiguous slice of [s]. *)
Fixpoint startswith (sub s : str) : bool :=
  match sub, s with
  | [], _ => true
  | _ :: _, [] => false
  | a :: sub', b :: s' => (a =? b)%N && startswith sub' s'
  end.

Fixpoint str_in (sub s : str) : bool :=
  startswith sub s ||
  match s with
  | [] => false
  | _ :: s' => str_in sub s'
  end.

(** ** Exceptions *)

Inductive exn :=
| KeyError (key : string)
| ValueError (msg : string)
| OSError (msg : string)
| UnicodeDecodeError (msg : string)
| NotModelled (what : string).

Definition exn_str (e : exn) : string :=
  match e with
  | KeyError k => "'" +:+ k +:+ "'"
  | ValueError m | OSError m | UnicodeDecodeError m | NotModelled m => m
  end.

Inductive result (A : Type) :=
| Ok (a : A)
| Raise (e : exn).
Arguments Ok {A} a.
Arguments Raise {A} e.

Definition bind {A B} (m : result A) (k : A -> result B) : result B :=
  match m with
  | Ok a => k a
  | Raise e => Raise e
  end.

Notation "x <- m ;; k" := (bind m (fun x => k))
  (at level 100, m at next level, right associativity).

(** [d[k]] on a dict with string keys. *)
Definition subscript (d : gmap string Z) (k : string) : result Z :=
  match d !! k with
  | Some v => Ok v
  | None => Raise (KeyError k)
  end.

(** ** The regular expressions of the file

    Only three shapes occur: a character set, a negated character set, and
    [(.)\1{2,}].  No flag is passed to [re.search], so a set is matched on
    code points as written, and [.] matches every character but the line
    feed. *)

Inductive regex :=
| CharSet (ranges : list (ascii * ascii))
| NegCharSet (ranges : list (ascii * ascii))
| Repeat3.

Definition in_ranges (ranges : list (ascii * ascii)) (c : N) : bool :=
  existsb (fun r => (N_of_ascii (fst r) <=? c)%N && (c <=? N_of_ascii (snd r))%N) ranges.

Definition LF : N := 10%N.

(** [(.)\1{2,}] matched at the head of [s]. *)
Definition repeat3_here (s : str) : bool :=
  match s with
  | a :: b :: c :: _ => negb (a =? LF)%N && (a =? b)%N && (a =? c)%N
  | _ => false
  end.

Fixpoint search_repeat3 (s : str) : bool :=
  repeat3_here s ||
  match s with
  | [] => false
  | _ :: s' => search_repeat3 s'
  end.

(** [re.search(pattern, s)], as a truth value. *)
Definition re_search (pattern : regex) (s : str) : bool :=
  match pattern with
  | CharSet rs => existsb (in_ranges rs) s
  | NegCharSet rs => existsb (fun c => negb (in_ranges rs c)) s
  | Repeat3 => search_repeat3 s
  end.

Definition re_lower : regex := CharSet [("a", "z")]%char.
Definition re_upper : regex := CharSet [("A", "Z")]%char.
Definition re_digit : regex := CharSet [("0", "9")]%char.
Definition re_special : regex :=
  NegCharSet [("a", "z"); ("A", "Z"); ("0", "9")]%char.

(** ** Configuration constants *)

Definition MIN_LENGTH : Z := 8.
Definition RECOMMENDED_LENGTH : Z := 12.
(** The two entropy thresholds, 50.0 and 80.0 bits, in hundredths. *)
Definition ENTROPY_THRESHOLD_WEAK : Z := 5000.
Definition ENTROPY_THRESHOLD_STRONG : Z := 8000.
Definition CHARSET_SIZES : gmap string Z :=
  <["lowercase" := 26]> (<["uppercase" := 26]> (<["digits" := 10]> (<["special" := 32]> ∅))).

(** ** Floats

    The floats of [calculate_entropy] are finite and not negative.  Such a
    double is held by its exact value [mantissa * 2 ^ exponent], and an
    operation returns the double nearest to its exact result, ties to even.
    The exponent range is not modelled: the values at hand lie between 1 and
    [7 * len(password)], and a [str] has fewer than [2^63] characters. *)

Record double := { mantissa : Z; exponent : Z }.

(** [m / 2^s] rounded to the nearest integer, ties to the even one. *)
Definition round_half_even (m s : Z) : Z :=
  let q := m / 2 ^ s in
  let r := m mod 2 ^ s in
  if 2 * r <? 2 ^ s then q
  else if 2 ^ s <? 2 * r then q + 1
  else if Z.even q then q else q + 1.

(** The double nearest to [m * 2^e], for [m >= 0]: 53 significant bits. *)
Definition nearest_double (m e : Z) : double :=
  let s := Z.log2 m - 52 in
  if s <=? 0 then {| mantissa := m; exponent := e |}
  else {| mantissa := round_half_even m s; exponent := e + s |}.

(** The conversion of the int [n >= 0] that [n * x] makes for a float [x]. *)
Definition float_of_int (n : Z) : double := nearest_double n 0.

(** [a * b] on floats. *)
Definition float_mul (a b : double) : double :=
  nearest_double (mantissa a * mantissa b) (exponent a + exponent b).

(** [round(x, 2)], in hundredths: CPython rounds the exact value of the
    double to two decimal places, ties to even, and returns the double
    nearest to that decimal. *)
Definition round2 (x : double) : Z :=
  if 0 <=? exponent x then 100 * mantissa x * 2 ^ exponent x
  else round_half_even (100 * mantissa x) (- exponent x).

(** The values of [math.log2] that [calculate_entropy] can ask for, on the
    sums of [CHARSET_SIZES]: the C library returns the double nearest to the
    logarithm. *)
Definition LOG2 : list (Z * double) :=
  [ (10, {| mantissa := 7480317065143153; exponent := -51 |});
    (26, {| mantissa := 5292224640774425; exponent := -50 |});
    (32, {| mantissa := 5629499534213120; exponent := -50 |});
    (36, {| mantissa := 5820818077507252; exponent := -50 |});
    (42, {| mantissa := 6071209683972465; exponent := -50 |});
    (52, {| mantissa := 6418124547617049; exponent := -50 |});
    (58, {| mantissa := 6595500256699995; exponent := -50 |});
    (62, {| mantissa := 6703829071187278; exponent := -50 |});
    (68, {| mantissa := 6853873845871692; exponent := -50 |});
    (84, {| mantissa := 7197109590815089; exponent := -50 |});
    (94, {| mantissa := 7379810977495554; exponent := -50 |}) ].

Fixpoint tabulated (x : Z) (table : list (Z * double)) : option double :=
  match table with
  | [] => None
  | (y, l) :: table' => if x =? y then Some l else tabulated x table'
  end.

(** [math.log2(x)]: a [ValueError] unless [x] is positive.  The model has
    no value outside the table. *)
Definition math_log2 (x : Z) : result double :=
  if x <=? 0 then Raise (ValueError "math domain error")
  else match tabulated x LOG2 with
       | Some l => Ok l
       | None => Raise (NotModelled "math.log2 outside the sums of CHARSET_SIZES")
       end.

(** The double as the hardware has it, for mantissas below [2^63]. *)
Definition hardware (x : double) : float :=
  Z.ldexp (PrimFloat.of_uint63 (Uint63.of_Z (mantissa x))) (exponent x).

(** [str(f)] for a float [f] with two decimal places, given in hundredths:
    the shortest decimal that reads back as [f] (below [1e16], where Python
    switches to the exponent notation). *)
Definition float_str (h : Z) : string :=
  let frac := h mod 100 in
  pretty (h / 100) +:+ "." +:+
  (if frac mod 10 =? 0 then pretty (frac / 10)
   else pretty (frac / 10) +:+ pretty (frac mod 10)).

(** ** Logging and the file system, as far as the loader sees them *)

Inductive level := INFO | WARNING | ERROR.

Definition log_record : Type := level * string.

(** A computation that logs: the records written, then the value returned
    or the exception raised. *)
Definition logged (A : Type) : Type := list log_record * result A.

(** [try: body / except Exception as e: handler e]. *)
Definition try_except {A} (body : logged A) (handler : exn -> logged A) : logged A :=
  match body with
  | (log, Ok a) => (log, Ok a)
  | (log, Raise e) => let '(log', r) := handler e in (log ++ log', r)
  end.

(** [path_exists] is [Path(p).exists()], which answers for a missing file
    and raises the other failures of the lookup (no permission on a
    directory of the path, a name that is too long); [read_lines] is opening
    the file and iterating over its lines, which raises when the file cannot
    be opened or decoded. *)
Record filesystem := {
  path_exists : str -> result bool;
  read_lines : str -> result (list str)
}.

(** ASCII restrictions of [str.lower] and [str.strip], for closed examples. *)
Definition ascii_lower (s : str) : str :=
  map (fun c => if (65 <=? c)%N && (c <=? 90)%N then (c + 32)%N else c) s.

Definition ascii_space (c : N) : bool :=
  ((9 <=? c)%N && (c <=? 13)%N) || ((28 <=? c)%N && (c <=? 32)%N).

Fixpoint lstrip (s : str) : str :=
  match s with
  | c :: s' => if ascii_space c then lstrip s' else s
  | [] => []
  end.

Definition ascii_strip (s : str) : str := rev (lstrip (rev (lstrip s))).

(** ** class PasswordAnalyzer *)

Record PasswordAnalyzer := { common_passwords : gset str }.

Record AnalysisResult := {
  strength : string;
  score : Z;
  entropy : Z;
  feedback : list string
}.

Section PasswordAnalyzer.

Variable lower : str -> str.
Variable strip : str -> str.

(** The body of the [try] block of [_load_common_passwords]. *)
Definition load_attempt (fs : filesystem) (file_path : str) : logged (gset str) :=
  match path_exists fs file_path with
  | Raise e => ([], Raise e)
  | Ok true =>
      ([], f <- read_lines fs file_path ;;
           Ok (list_to_set
                 (map (fun line => lower (strip line))
                      (filter (fun line => strip line <> []) f))))
  | Ok false =>
      ([(WARNING, "Common passwords file not found. Using minimal set.")],
       Ok {[ lit "password"; lit "123456"; lit "qwerty"; lit "admin123"; lit "letmein" ]})
  end.

Definition _load_common_passwords (fs : filesystem) (file_path : str)
  : logged (gset str) :=
  try_except (load_attempt fs file_path)
    (fun e => ([(ERROR, "Error loading common passwords: " +:+ exn_str e)], Ok ∅)).

(** [__init__]: an exception of the loader would leave no object. *)
Definition init (fs : filesystem) (common_passwords_file : str)
  : logged PasswordAnalyzer :=
  let '(log, r) := _load_common_passwords fs common_passwords_file in
  (log, s <- r ;; Ok {| common_passwords := s |}).

(** [charset_size += CHARSET_SIZES[key]] under [if re.search(pattern, password)]. *)
Definition add_charset (pattern : regex) (key : string) (password : str)
    (charset_size : Z) : result Z :=
  if re_search pattern password then
    v <- subscript CHARSET_SIZES key ;; Ok (charset_size + v)
  else Ok charset_size.

Definition calculate_entropy (password : str) : result Z :=
  let charset_size := 0 in
  charset_size <- add_charset re_lower "lowercase" password charset_size ;;
  charset_size <- add_charset re_upper "uppercase" password charset_size ;;
  charset_size <- add_charset re_digit "digits" password charset_size ;;
  charset_size <- add_charset re_special "special" password charset_size ;;
  if charset_size =? 0 then Ok 0
  else
    l <- math_log2 charset_size ;;
    Ok (round2 (float_mul (float_of_int (len password)) l)).

Definition check_patterns (password : str) : bool :=
  if re_search Repeat3 password then true
  else if existsb (fun sub => str_in sub (lower password))
                  [lit "abc"; lit "123"; lit "qwe"; lit "asdf"] then true
  else false.

(** The blocks of [analyze] update the pair of locals [feedback], [score]. *)
Definition locals : Type := list string * Z.

Definition append (line : string) (st : locals) : locals :=
  (fst st ++ [line], snd st).

Definition set_score (f : Z -> Z) (st : locals) : locals :=
  (fst st, f (snd st)).

(** # Length checks *)
Definition length_checks (password : str) (st : locals) : locals :=
  if len password <? MIN_LENGTH then
    append ("Password too short. Use at least " +:+ pretty MIN_LENGTH +:+ " characters.") st
  else if len password >=? RECOMMENDED_LENGTH then
    set_score (fun score => score + 3)
      (append ("Excellent! Password length is strong (" +:+ pretty RECOMMENDED_LENGTH
               +:+ "+ characters).") st)
  else
    set_score (fun score => score + 1)
      (append ("Good length, but consider " +:+ pretty RECOMMENDED_LENGTH
               +:+ "+ characters.") st).

(** # Character type checks *)
Definition checks : list (regex * string * Z) :=
  [ (re_lower, "lowercase letters", 1);
    (re_upper, "uppercase letters", 1);
    (re_digit, "numbers", 1);
    (re_special, "special characters", 2) ]%string.

Definition character_type_check (password : str) (st : locals)
    (check : regex * string * Z) : locals :=
  let '(pattern, desc, points) := check in
  if re_search pattern password then
    set_score (fun score => score + points)
      (append ("Contains " +:+ desc +:+ ": Good.") st)
  else
    append ("Add " +:+ desc +:+ " for better strength.") st.

Definition character_type_checks (password : str) (st : locals) : locals :=
  fold_left (character_type_check password) checks st.

(** # Common password and pattern checks *)
Definition common_and_pattern_checks (self : PasswordAnalyzer)
    (password : str) (st : locals) : locals :=
  if bool_decide (lower password ∈ common_passwords self) then
    set_score (fun _ => 0)
      (append "WARNING: Common password detected! Easily guessable." st)
  else if check_patterns password then
    set_score (fun score => Z.min score 2)
      (append "WARNING: Predictable pattern detected (e.g., sequences)." st)
  else st.

(** # Entropy calculation, after [entropy] has been computed *)
Definition entropy_checks (entropy : Z) (st : locals) : locals :=
  let st := append ("Password entropy: " +:+ float_str entropy +:+ " bits.") st in
  if entropy <? ENTROPY_THRESHOLD_WEAK then
    append "Low entropy; use a longer or more complex password." st
  else if entropy >=? ENTROPY_THRESHOLD_STRONG then
    set_score (fun score => score + 2)
      (append "High entropy: Excellent brute-force resistance!" st)
  else st.

(** # Strength rating *)
Definition strength_rating (score : Z) : string :=
  if score >=? 10 then "Strong" else if score >=? 6 then "Moderate" else "Weak".

Definition analyze (self : PasswordAnalyzer) (password : str)
  : result AnalysisResult :=
  match password with
  | [] =>
      Ok {| strength := "Invalid"; score := 0; entropy := 0;
            feedback := ["Password cannot be empty."] |}
  | _ :: _ =>
      let st : locals := ([], 0) in
      let st := length_checks password st in
      let st := character_type_checks password st in
      let st := common_and_pattern_checks self password st in
      entropy <- calculate_entropy password ;;
      let st := entropy_checks entropy st in
      let '(feedback, score) := st in
      let strength := strength_rating score in
      Ok {| strength := strength; score := score; entropy := entropy;
            feedback := feedback |}
  end.

End PasswordAnalyzer.

(** The analyzer that [__init__] builds when the file is missing. *)
Definition no_files : filesystem :=
  {| path_exists := fun _ => Ok false;
     read_lines := fun _ => Raise (OSError "No such file or directory") |}.

Definition default_analyzer : PasswordAnalyzer :=
  {| common_passwords :=
       {[ lit "password"; lit "123456"; lit "qwerty"; lit "admin123"; lit "letmein" ]} |}.

(** ** [analyze] over the store of the interpreter

    [analyze] above is the value that a call returns, as a function of what
    the call reads.  What follows is the same method statement by statement,
    over the mutable objects a call can reach: the dict bound to the global
    [CHARSET_SIZES], the set held by [self.common_passwords], and the list
    objects, by address.  Strings, integers and floats are immutable and stay
    values.  A statement is a function from the store to the new store and
    an outcome; the method calls no clock and no random source, and does no
    input or output, so the store is all it can depend on besides its
    argument. *)

Record store := {
  dict_CHARSET_SIZES : gmap string Z;
  self_common_passwords : gset str;
  list_objects : list (list string)
}.

Definition M (A : Type) : Type := store -> store * result A.

Definition ret {A} (a : A) : M A := fun st => (st, Ok a).

Definition lift {A} (r : result A) : M A := fun st => (st, r).

Definition bindM {A B} (m : M A) (k : A -> M B) : M B :=
  fun st =>
    match m st with
    | (st', Ok a) => k a st'
    | (st', Raise e) => (st', Raise e)
    end.

Notation "x <~ m ;; k" := (bindM m (fun x => k))
  (at level 100, m at next level, right associativity).

(** [CHARSET_SIZES[key]]. *)
Definition global_subscript (key : string) : M Z :=
  fun st => (st, subscript (dict_CHARSET_SIZES st) key).

(** [self.common_passwords]. *)
Definition self_attr : M (gset str) :=
  fun st => (st, Ok (self_common_passwords st)).

Definition with_list (st : store) (l : nat) (items : list string) : store :=
  {| dict_CHARSET_SIZES := dict_CHARSET_SIZES st;
     self_common_passwords := self_common_passwords st;
     list_objects := <[l := items]> (list_objects st) |}.

(** A list display: a new list object, at a fresh address. *)
Definition new_list (items : list string) : M nat :=
  fun st =>
    ({| dict_CHARSET_SIZES := dict_CHARSET_SIZES st;
        self_common_passwords := self_common_passwords st;
        list_objects := list_objects st ++ [items] |},
     Ok (length (list_objects st))).

(** [l.append(x)]: the object at [l] changes in place. *)
Definition list_append (l : nat) (x : string) : M unit :=
  fun st =>
    match list_objects st !! l with
    | Some items => (with_list st l (items ++ [x]), Ok tt)
    | None => (st, Ok tt)
    end.

(** The dict that [analyze] returns, with its feedback list by address. *)
Record AnalysisObject := {
  o_strength : string;
  o_score : Z;
  o_entropy : Z;
  o_feedback : nat
}.

(** The value of a returned dict in a store. *)
Definition contents (st : store) (o : AnalysisObject) : option AnalysisResult :=
  match list_objects st !! o_feedback o with
  | Some items =>
      Some {| strength := o_strength o; score := o_score o;
              entropy := o_entropy o; feedback := items |}
  | None => None
  end.

Fixpoint for_each {A S} (body : S -> A -> M S) (items : list A) (s : S) : M S :=
  match items with
  | [] => ret s
  | a :: items' => s' <~ body s a ;; for_each body items' s'
  end.

Section Statements.

Variable lower : str -> str.

Definition add_charset_m (pattern : regex) (key : string) (password : str)
    (charset_size : Z) : M Z :=
  if re_search pattern password then
    v <~ global_subscript key ;; ret (charset_size + v)
  else ret charset_size.

Definition calculate_entropy_m (password : str) : M Z :=
  let charset_size := 0 in
  charset_size <~ add_charset_m re_lower "lowercase" password charset_size ;;
  charset_size <~ add_charset_m re_upper "uppercase" password charset_size ;;
  charset_size <~ add_charset_m re_digit "digits" password charset_size ;;
  charset_size <~ add_charset_m re_special "special" password charset_size ;;
  if charset_size =? 0 then ret 0
  else
    lift (l <- math_log2 charset_size ;;
          Ok (round2 (float_mul (float_of_int (len password)) l))).

Definition length_checks_m (password : str) (feedback : nat) (score : Z) : M Z :=
  if len password <? MIN_LENGTH then
    _ <~ list_append feedback
           ("Password too short. Use at least " +:+ pretty MIN_LENGTH +:+ " characters.") ;;
    ret score
  else if len password >=? RECOMMENDED_LENGTH then
    _ <~ list_append feedback
           ("Excellent! Password length is strong (" +:+ pretty RECOMMENDED_LENGTH
            +:+ "+ characters).") ;;
    ret (score + 3)
  else
    _ <~ list_append feedback
           ("Good length, but consider " +:+ pretty RECOMMENDED_LENGTH
            +:+ "+ characters.") ;;
    ret (score + 1).

Definition character_type_check_m (password : str) (feedback : nat) (score : Z)
    (check : regex * string * Z) : M Z :=
  let '(pattern, desc, points) := check in
  if re_search pattern password then
    _ <~ list_append feedback ("Contains " +:+ desc +:+ ": Good.") ;;
    ret (score + points)
  else
    _ <~ list_append feedback ("Add " +:+ desc +:+ " for better strength.") ;;
    ret score.

Definition common_and_pattern_checks_m (password : str) (feedback : nat)
    (score : Z) : M Z :=
  common_passwords <~ self_attr ;;
  if bool_decide (lower password ∈ common_passwords) then
    _ <~ list_append feedback "WARNING: Common password detected! Easily guessable." ;;
    ret 0
  else if check_patterns lower password then
    _ <~ list_append feedback "WARNING: Predictable pattern detected (e.g., sequences)." ;;
    ret (Z.min score 2)
  else ret score.

Definition entropy_checks_m (entropy : Z) (feedback : nat) (score : Z) : M Z :=
  _ <~ list_append feedback ("Password entropy: " +:+ float_str entropy +:+ " bits.") ;;
  if entropy <? ENTROPY_THRESHOLD_WEAK then
    _ <~ list_append feedback "Low entropy; use a longer or more complex password." ;;
    ret score
  else if entropy >=? ENTROPY_THRESHOLD_STRONG then
    _ <~ list_append feedback "High entropy: Excellent brute-force resistance!" ;;
    ret (score + 2)
  else ret score.

(** [analyze], statement by statement. *)
Definition analyze_m (password : str) : M AnalysisObject :=
  match password with
  | [] =>
      feedback <~ new_list ["Password cannot be empty."] ;;
      ret {| o_strength := "Invalid"; o_score := 0; o_entropy := 0;
             o_feedback := feedback |}
  | _ :: _ =>
      feedback <~ new_list [] ;;
      let score := 0 in
      score <~ length_checks_m password feedback score ;;
      score <~ for_each (character_type_check_m password feedback) checks score ;;
      score <~ common_and_pattern_checks_m password feedback score ;;
      entropy <~ calculate_entropy_m password ;;
      score <~ entropy_checks_m entropy feedback score ;;
      let strength := strength_rating score in
      ret {| o_strength := strength; o_score := score; o_entropy := entropy;
             o_feedback := feedback |}
  end.

End Statements.

(** The store as the module leaves it after its imports, with an analyzer
    that holds [common]. *)
Definition module_store (common : gset str) : store :=
  {| dict_CHARSET_SIZES := CHARSET_SIZES;
     self_common_passwords := common;
     list_objects := [] |}.

(** [st'] has what [st] has: the same [CHARSET_SIZES], the same set of
    common passwords, and every list object of [st] with its items. *)
Definition unchanged (st st' : store) : Prop :=
  dict_CHARSET_SIZES st' = dict_CHARSET_SIZES st /\
  self_common_passwords st' = self_common_passwords st /\
  forall l items,
    list_objects st !! l = Some items -> list_objects st' !! l = Some items.

(** ** The vocabulary of the specification *)

Definition is_lowercase (c : N) : bool := (97 <=? c)%N && (c <=? 122)%N.
Definition is_uppercase (c : N) : bool := (65 <=? c)%N && (c <=? 90)%N.
Definition is_digit (c : N) : bool := (48 <=? c)%N && (c <=? 57)%N.
Definition is_special (c : N) : bool :=
  negb (is_lowercase c || is_uppercase c || is_digit c).

(** The alphabet in use: the sizes of the classes present, summed. *)
Definition alphabet_size (password : str) : Z :=
  (if existsb is_lowercase password then 26 else 0) +
  (if existsb is_uppercase password then 26 else 0) +
  (if existsb is_digit password then 10 else 0) +
  (if existsb is_special password then 32 else 0).

(** The value of a double whose exponent is at least -51, in units of
    [2^-51]. *)
Definition units (x : double) : Z := mantissa x * 2 ^ (exponent x + 51).

(** *** Brackets

    The logarithm of [x] is compared with a double through the powers of
    [x]: [p / 2^k < log2 x] says [2^p < x^(2^k)]. Such a power is far too
    large to write down; it is followed through its [k] squarings by an
    interval with 128-bit ends. *)

(** The interval from [lo * 2^scale] to [hi * 2^scale]. *)
Record bracket := { lo : Z; hi : Z; scale : Z }.

Definition brackets (i : bracket) (X : Z) : Prop :=
  lo i * 2 ^ scale i <= X <= hi i * 2 ^ scale i.

(** The bracket of the square, cut back to 128 bits. *)
Definition squared (i : bracket) : bracket :=
  let t := Z.max 0 (Z.log2 (hi i * hi i) - 128) in
  {| lo := (lo i * lo i) / 2 ^ t;
     hi := (hi i * hi i + 2 ^ t - 1) / 2 ^ t;
     scale := 2 * scale i + t |}.

Fixpoint squarings (k : nat) (i : bracket) : bracket :=
  match k with
  | O => i
  | S k' => squarings k' (squared i)
  end.

Definition well_formed (i : bracket) : Prop := 0 <= lo i <= hi i /\ 0 <= scale i.

Definition point (x : Z) : bracket := {| lo := x; hi := x; scale := 0 |}.

(** [2^p < x^(2^k) < 2^q], decided on the bracket. *)
Definition between (x : Z) (k : nat) (p q : Z) : bool :=
  let i := squarings k (point x) in
  (0 <=? p - scale i) && (2 ^ (p - scale i) <? lo i) &&
  (0 <=? q - scale i) && (hi i <? 2 ^ (q - scale i)).

(** [l] is the double nearest to [log2 x]: it has 53 significant bits and
    lies less than half a unit of its last place from the logarithm,
    [(m - 1/2) * 2^e < log2 x < (m + 1/2) * 2^e]. *)
Definition nearest_to_log2 (x : Z) (l : double) : Prop :=
  2 ^ 52 <= mantissa l < 2 ^ 53 /\ exponent l < 0 /\
  2 ^ (2 * mantissa l - 1) < x ^ 2 ^ (1 - exponent l) < 2 ^ (2 * mantissa l + 1).

(** [k] is [100 * n * log2 x] rounded to the nearest integer, the number
    of hundredths that rounding the exact product [n * log2 x] to two
    decimal places gives: [k - 1/2 <= 100 * n * log2 x < k + 1/2]. *)
Definition exactly_rounded (n x k : Z) : Prop :=
  2 ^ (2 * k - 1) <= x ^ (200 * n) < 2 ^ (2 * k + 1).

(** The letter a followed by [n] zeros. *)
Definition a_and_zeros (n : Z) : str := lit "a" ++ repeat 48%N (Z.to_nat n).

Definition long_password : str := a_and_zeros 2981323.

(** [sub] is a contiguous slice of [s]. *)
Definition contains (sub s : str) : Prop :=
  exists pre post, s = pre ++ sub ++ post.

(** The two warning lines of [analyze]. *)
Definition common_warning : string :=
  "WARNING: Common password detected! Easily guessable.".
Definition pattern_warning : string :=
  "WARNING: Predictable pattern detected (e.g., sequences).".

(** The weak substrings, and the patterns the specification calls
    predictable: a run of three equal characters, or a weak substring of the
    lower-cased password. *)
Definition weak_substrings : list str :=
  [lit "abc"; lit "123"; lit "qwe"; lit "asdf"].

Definition has_run (p : str) : Prop :=
  exists c, c <> LF /\ contains [c; c; c] p.

Definition has_weak_substring (lower : str -> str) (p : str) : Prop :=
  exists sub, In sub weak_substrings /\ contains sub (lower p).

Definition is_warning (w : string) : Prop :=
  w = common_warning \/ w = pattern_warning.

(** A result is flagged when its feedback holds one of the two warnings. *)
Definition flagged (r : AnalysisResult) : Prop :=
  In common_warning (feedback r) \/ In pattern_warning (feedback r).

(** An analyzer whose list of common passwords holds one long pass phrase. *)
Definition phrase_analyzer : PasswordAnalyzer :=
  {| common_passwords := {[ lit "correcthorsebatterystaple" ]} |}.

(** The file that gives [phrase_analyzer]: one line, with its line feed. *)
Definition phrase_file : filesystem :=
  {| path_exists := fun _ => Ok true;
     read_lines := fun _ => Ok [lit "CorrectHorseBatteryStaple" ++ [LF]] |}.

(** A path that cannot be looked up: [Path.exists] raises. *)
Definition closed_directory : filesystem :=
  {| path_exists := fun _ => Raise (OSError "[Errno 13] Permission denied");
     read_lines := fun _ => Raise (OSError "[Errno 13] Permission denied") |}.

(** A file that exists and cannot be read. *)
Definition locked_file : filesystem :=
  {| path_exists := fun _ => Ok true;
     read_lines := fun _ => Raise (OSError "[Errno 13] Permission denied") |}.

(** ** The console *)

(** What [rich] is asked to show: a table, or a line of text with its style. *)
Record Table := {
  title : string;
  show_header : bool;
  header_style : string;
  columns : list (string * string);
  rows : list (list string)
}.

Definition add_column (header style : string) (t : Table) : Table :=
  {| title := title t; show_header := show_header t; header_style := header_style t;
     columns := columns t ++ [(header, style)]; rows := rows t |}.

Definition add_row (cells : list string) (t : Table) : Table :=
  {| title := title t; show_header := show_header t; header_style := header_style t;
     columns := columns t; rows := rows t ++ [cells] |}.

Inductive printed :=
| PrintTable (t : Table)
| PrintText (text : string) (style : option string).

Definition nl : string := String "010"%char EmptyString.

(** [sub in item] on two ASCII strings. *)
Definition string_in (sub item : string) : bool := str_in (lit sub) (lit item).

Definition display_results (result : AnalysisResult) : list printed :=
  let table := {| title := "Password Analysis"; show_header := true;
                  header_style := "bold magenta";
                  columns := []; rows := [] |} in
  let table := add_column "Metric" "cyan" table in
  let table := add_column "Value" "green" table in
  let table := add_row ["Strength"; strength result]%string table in
  let table := add_row ["Score"; pretty (score result) +:+ "/12"]%string table in
  let table := add_row ["Entropy"; float_str (entropy result) +:+ " bits"]%string table in
  [PrintTable table; PrintText (nl +:+ "[bold]Feedback:[/bold]") None] ++
  map (fun item =>
         PrintText ("- " +:+ item)
           (Some (if string_in "WARNING" item then "yellow" else "white")%string))
      (feedback result) ++
  [PrintText (nl +:+ "[bold]Recommendations:[/bold]") None;
   PrintText "- Use a mix of uppercase, lowercase, numbers, and special characters." None;
   PrintText ("- Aim for " +:+ pretty RECOMMENDED_LENGTH +:+ "+ characters and entropy >"
              +:+ float_str ENTROPY_THRESHOLD_STRONG +:+ " bits.") None;
   PrintText "- Avoid common passwords or predictable patterns." None].

(** The characters of a printed number: the minus sign, the point, a digit. *)
Definition numeric_char (c : N) : Prop :=
  c = 45%N \/ c = 46%N \/ (48 <= c <= 57)%N.

(** A feedback line is marked when it holds the word WARNING; for the lines
    [analyze] writes this is the case of the two warnings only. *)
Definition marks_ok (item : string) : Prop :=
  string_in "WARNING" item = true <-> is_warning item.

(** ** main *)

(** What one call of [console.input] gives: a line typed by the user, the
    interrupt key, or another failure of the terminal. *)
Inductive console_input :=
| Typed (line : str)
| KeyboardInterrupt
| InputError (e : exn).

(** What the program does to the outside, in order. *)
Inductive effect :=
| Prompted (prompt : string)
| Printed (p : printed)
| Logged (l : log_record).

(** [s * n] on strings. *)
Fixpoint string_mul (s : string) (n : nat) : string :=
  match n with
  | O => EmptyString
  | S n' => s +:+ string_mul s n'
  end.

Definition farewell : string := "Exiting Password Checker. Stay secure!".

Section Main.

Variable lower : str -> str.
Variable strip : str -> str.

(** The [except Exception as e] handler of the loop. *)
Definition report_error (e : exn) : list effect :=
  [Logged (ERROR, "Error: " +:+ exn_str e);
   Printed (PrintText "An error occurred. Please try again." (Some "bold red"%string))].

(** The [while True] loop of [main], run on the inputs the console gives;
    the run is observed until they are used up. *)
Fixpoint main_loop (analyzer : PasswordAnalyzer) (inputs : list console_input)
  : list effect :=
  match inputs with
  | [] => []
  | input :: inputs' =>
      Prompted "Enter password: " ::
      match input with
      | Typed line =>
          let password := strip line in
          if bool_decide (lower password = lit "q") then
            [Printed (PrintText farewell (Some "bold green"%string))]
          else
            match analyze lower analyzer password with
            | Ok result =>
                map Printed (display_results result) ++
                Printed (PrintText (nl +:+ string_mul "=" 40 +:+ nl) None) ::
                main_loop analyzer inputs'
            | Raise e => report_error e ++ main_loop analyzer inputs'
            end
      | KeyboardInterrupt =>
          [Printed (PrintText (nl +:+ farewell) (Some "bold green"%string))]
      | InputError e => report_error e ++ main_loop analyzer inputs'
      end
  end.

(** [main], after the command line has given [common_passwords_file]. *)
Definition main (fs : filesystem) (common_passwords_file : str)
    (inputs : list console_input) : list effect * result unit :=
  let '(log, r) := init lower strip fs common_passwords_file in
  match r with
  | Ok analyzer => (map Logged log ++ main_loop analyzer inputs, Ok tt)
  | Raise e => (map Logged log, Raise e)
  end.

(** An input that ends the loop. *)
Definition quits (input : console_input) : Prop :=
  match input with
  | Typed line => lower (strip line) = lit "q"
  | KeyboardInterrupt => True
  | InputError _ => False
  end.

End Main.

(** The lines of [phrase_file] again, between blank lines and twice. *)
Definition noisy_phrase_file : filesystem :=
  {| path_exists := fun _ => Ok true;
     read_lines := fun _ =>
       Ok [[LF]; lit "CorrectHorseBatteryStaple" ++ [LF]; [32%N; LF];
           lit "CorrectHorseBatteryStaple" ++ [LF]] |}.

Example init_no_files :
  init ascii_lower ascii_strip no_files (lit "common_passwords.txt") =
  ([(WARNING, "Common passwords file not found. Using minimal set."%string)],
   Ok default_analyzer).
Proof. reflexivity. Qed.

Example init_phrase_file :
  init ascii_lower ascii_strip phrase_file (lit "common_passwords.txt") =
  ([], Ok phrase_analyzer).
Proof. vm_compute. reflexivity. Qed.

Example float_str_ex :
  float_str 3760 = "37.6"%string /\ float_str 4000 = "40.0"%string /\
  float_str 11751 = "117.51"%string /\ float_str 5205 = "52.05"%string.
Proof. repeat split; vm_compute; reflexivity. Qed.

Example charset_ex : subscript CHARSET_SIZES "digits" = Ok 10.
Proof. vm_compute. reflexivity. Qed.

(** * Properties *)

(** ** Strings and regular expressions *)

Lemma existsb_pointwise {A} (f g : A -> bool) (l : list A) :
  (forall a, f a = g a) -> existsb f l = existsb g l.
Proof.
  intros Hfg. induction l as [|a l IH]; simpl; [reflexivity|].
  now rewrite Hfg, IH.
Qed.

Lemma re_search_lower p : re_search re_lower p = existsb is_lowercase p.
Proof.
  apply existsb_pointwise. intros c. unfold in_ranges, is_lowercase. simpl.
  now rewrite orb_false_r.
Qed.

Lemma re_search_upper p : re_search re_upper p = existsb is_uppercase p.
Proof.
  apply existsb_pointwise. intros c. unfold in_ranges, is_uppercase. simpl.
  now rewrite orb_false_r.
Qed.

Lemma re_search_digit p : re_search re_digit p = existsb is_digit p.
Proof.
  apply existsb_pointwise. intros c. unfold in_ranges, is_digit. simpl.
  now rewrite orb_false_r.
Qed.

Lemma re_search_special p : re_search re_special p = existsb is_special p.
Proof.
  apply existsb_pointwise. intros c.
  unfold in_ranges, is_special, is_lowercase, is_uppercase, is_digit. simpl.
  now rewrite orb_false_r, orb_assoc.
Qed.

(** Every character is alphanumeric or special: a non-empty string shows at
    least one class. *)
Lemma some_class_present c :
  is_lowercase c || is_uppercase c || is_digit c || is_special c = true.
Proof. unfold is_special. now destruct (is_lowercase c || is_uppercase c || is_digit c). Qed.

Lemma alphabet_size_bounds p : 0 <= alphabet_size p <= 94.
Proof. unfold alphabet_size. repeat case_match; lia. Qed.

Lemma alphabet_size_pos c p : 10 <= alphabet_size (c :: p).
Proof.
  unfold alphabet_size. simpl. pose proof (some_class_present c) as H.
  destruct (is_lowercase c), (is_uppercase c), (is_digit c), (is_special c);
    simpl in *; try discriminate; repeat case_match; lia.
Qed.

Lemma alphabet_size_nil : alphabet_size [] = 0.
Proof. reflexivity. Qed.

Lemma startswith_spec sub s :
  startswith sub s = true <-> exists post, s = sub ++ post.
Proof.
  revert s. induction sub as [|a sub IH]; intros s; simpl.
  - split; [intros _; now exists s | reflexivity].
  - destruct s as [|b s].
    + split; [discriminate | intros [post H]; discriminate].
    + rewrite andb_true_iff, N.eqb_eq, IH. split.
      * intros [-> [post ->]]. now exists post.
      * intros [post H]. injection H as -> ->. split; [reflexivity | now exists post].
Qed.

Lemma str_in_spec sub s : str_in sub s = true <-> contains sub s.
Proof.
  unfold contains. induction s as [|b s IH].
  - simpl. rewrite orb_false_r, startswith_spec. split.
    + intros [post H]. now exists [], post.
    + intros [pre [post H]]. destruct pre; [now exists post|discriminate].
  - cbn [str_in]. rewrite orb_true_iff, startswith_spec, IH. split.
    + intros [[post H] | [pre [post H]]].
      * now exists [], post.
      * exists (b :: pre), post. now rewrite H.
    + intros [pre [post H]]. destruct pre as [|b' pre].
      * left. now exists post.
      * right. injection H as _ H. now exists pre, post.
Qed.

Lemma search_repeat3_spec s :
  search_repeat3 s = true <->
  exists c, c <> LF /\ contains [c; c; c] s.
Proof.
  unfold contains. induction s as [|b s IH].
  - simpl. split; [discriminate|].
    intros [c [_ [pre [post H]]]]. destruct pre; discriminate.
  - cbn [search_repeat3]. rewrite orb_true_iff, IH. split.
    + intros [H | [c [Hc [pre [post H]]]]].
      * destruct s as [|b1 [|b2 s]]; simpl in H; try discriminate.
        rewrite !andb_true_iff, negb_true_iff, N.eqb_neq, !N.eqb_eq in H.
        destruct H as [[Hb <-] <-]. exists b. split; [exact Hb|]. now exists [], s.
      * exists c. split; [exact Hc|]. exists (b :: pre), post. now rewrite H.
    + intros [c [Hc [pre [post H]]]]. destruct pre as [|b' pre].
      * left. injection H as -> ->. simpl.
        rewrite !N.eqb_refl, !andb_true_r, negb_true_iff. now apply N.eqb_neq.
      * right. injection H as _ H. exists c. split; [exact Hc|]. now exists pre, post.
Qed.

(** ** Entropy *)

Lemma round_half_even_bounds m s :
  0 <= m -> 0 <= s ->
  2 * m - 2 ^ s <= 2 * (round_half_even m s * 2 ^ s) <= 2 * m + 2 ^ s /\
  0 <= round_half_even m s.
Proof.
  intros Hm Hs. unfold round_half_even.
  assert (HP : 0 < 2 ^ s) by (apply Z.pow_pos_nonneg; lia).
  pose proof (Z.div_mod m (2 ^ s) ltac:(lia)) as Hdm.
  pose proof (Z.mod_pos_bound m (2 ^ s) HP) as Hr.
  assert (Hq : 0 <= m / 2 ^ s) by (apply Z.div_pos; lia).
  cbv zeta. set (P := 2 ^ s) in *. set (q := m / P) in *. set (r := m mod P) in *.
  clearbody q r. clearbody P.
  destruct (Z.ltb_spec (2 * r) P); [nia|].
  destruct (Z.ltb_spec P (2 * r)); [nia|].
  destruct (Z.even q); nia.
Qed.

(** The value of [nearest_double m e] is [m * 2^e] within one part in 2^53. *)
Lemma nearest_double_bounds m e :
  0 <= m ->
  exists s, 0 <= s /\
    exponent (nearest_double m e) = e + s /\
    0 <= mantissa (nearest_double m e) /\
    (2 ^ 53 - 1) * m <= 2 ^ 53 * (mantissa (nearest_double m e) * 2 ^ s)
      <= (2 ^ 53 + 1) * m.
Proof.
  intros Hm. unfold nearest_double. cbv zeta.
  destruct (Z.leb_spec (Z.log2 m - 52) 0) as [Hs | Hs].
  - exists 0. cbn [mantissa exponent]. change (2 ^ 0) with 1. lia.
  - exists (Z.log2 m - 52). cbn [mantissa exponent].
    assert (Hpos : 0 < m).
    { destruct (Z.eq_dec m 0) as [-> | ?]; [cbn in Hs; lia | lia]. }
    pose proof (Z.log2_spec m Hpos) as [Hlo _].
    replace (Z.log2 m) with (52 + (Z.log2 m - 52)) in Hlo at 1 by lia.
    rewrite Z.pow_add_r in Hlo by lia.
    destruct (round_half_even_bounds m (Z.log2 m - 52) Hm ltac:(lia)) as [Hb Hq].
    set (P := 2 ^ (Z.log2 m - 52)) in *.
    set (q := round_half_even m (Z.log2 m - 52)) in *.
    clearbody q. clearbody P. change (2 ^ 52) with 4503599627370496 in Hlo.
    change (2 ^ 53) with 9007199254740992. repeat split; try lia.
Qed.

Lemma round2_bounds x :
  0 <= mantissa x -> -51 <= exponent x ->
  200 * units x - 2 ^ 51 <= 2 * (round2 x * 2 ^ 51) <= 200 * units x + 2 ^ 51 /\
  0 <= round2 x.
Proof.
  intros Hm He. unfold round2, units.
  destruct (Z.leb_spec 0 (exponent x)) as [Hpos | Hneg].
  - rewrite Z.pow_add_r by lia.
    assert (0 < 2 ^ exponent x) by (apply Z.pow_pos_nonneg; lia).
    change (2 ^ 51) with 2251799813685248. nia.
  - destruct (round_half_even_bounds (100 * mantissa x) (- exponent x)
                ltac:(lia) ltac:(lia)) as [Hb Hk].
    split; [|exact Hk].
    assert (Hsplit : 2 ^ 51 = 2 ^ (- exponent x) * 2 ^ (exponent x + 51)).
    { rewrite <- Z.pow_add_r by lia. f_equal. lia. }
    assert (HB : 0 < 2 ^ (exponent x + 51)) by (apply Z.pow_pos_nonneg; lia).
    rewrite Hsplit.
    set (A := 2 ^ (- exponent x)) in *. set (B := 2 ^ (exponent x + 51)) in *.
    set (k := round_half_even (100 * mantissa x) (- exponent x)) in *.
    clearbody k. clearbody A B. nia.
Qed.

(** [round(n * l, 2)] in three steps, each within its rounding error. *)
Lemma round2_float_mul n l :
  0 <= n -> 0 <= mantissa l -> -51 <= exponent l ->
  exists N P,
    0 <= N /\ 0 <= P /\
    (2 ^ 53 - 1) * n <= 2 ^ 53 * N <= (2 ^ 53 + 1) * n /\
    (2 ^ 53 - 1) * (N * units l) <= 2 ^ 53 * P <= (2 ^ 53 + 1) * (N * units l) /\
    200 * P - 2 ^ 51 <= 2 * (round2 (float_mul (float_of_int n) l) * 2 ^ 51)
      <= 200 * P + 2 ^ 51 /\
    0 <= round2 (float_mul (float_of_int n) l).
Proof.
  intros Hn Hm He. unfold float_mul, float_of_int.
  destruct (nearest_double_bounds n 0 Hn) as (s1 & Hs1 & He1 & Hm1 & Hb1).
  set (fn := nearest_double n 0) in *.
  assert (Hprod : 0 <= mantissa fn * mantissa l) by nia.
  destruct (nearest_double_bounds (mantissa fn * mantissa l)
              (exponent fn + exponent l) Hprod) as (s2 & Hs2 & He2 & Hm2 & Hb2).
  set (p := nearest_double (mantissa fn * mantissa l) (exponent fn + exponent l)) in *.
  destruct (round2_bounds p Hm2 ltac:(lia)) as [Hb3 Hk].
  exists (mantissa fn * 2 ^ s1), (units p).
  assert (HA : 0 < 2 ^ s1) by (apply Z.pow_pos_nonneg; lia).
  assert (HB : 0 < 2 ^ (exponent l + 51)) by (apply Z.pow_pos_nonneg; lia).
  assert (HC : 0 < 2 ^ s2) by (apply Z.pow_pos_nonneg; lia).
  assert (Hu : units p = mantissa p * 2 ^ s2 * (2 ^ s1 * 2 ^ (exponent l + 51))).
  { unfold units. rewrite He2, He1.
    replace (0 + s1 + exponent l + s2 + 51) with (s2 + (s1 + (exponent l + 51))) by lia.
    rewrite !Z.pow_add_r by lia. ring. }
  split; [nia|]. split; [rewrite Hu; nia|]. split; [exact Hb1|].
  split; [|split; [exact Hb3 | exact Hk]].
  rewrite Hu. unfold units at 1 2.
  set (A := 2 ^ s1) in *. set (B := 2 ^ (exponent l + 51)) in *.
  set (X := mantissa p * 2 ^ s2) in *. set (M := mantissa fn * mantissa l) in *.
  assert (HAB : 0 < A * B) by nia.
  replace (mantissa fn * A * (mantissa l * B)) with (M * (A * B)) by (unfold M; ring).
  replace (2 ^ 53 * (X * (A * B))) with ((2 ^ 53 * X) * (A * B)) by ring.
  replace ((2 ^ 53 - 1) * (M * (A * B))) with (((2 ^ 53 - 1) * M) * (A * B)) by ring.
  replace ((2 ^ 53 + 1) * (M * (A * B))) with (((2 ^ 53 + 1) * M) * (A * B)) by ring.
  split; apply Z.mul_le_mono_nonneg_r; lia.
Qed.

Ltac table_cases Hin :=
  unfold LOG2 in Hin; simpl in Hin;
  repeat (destruct Hin as [Hin | Hin]; [injection Hin as <- <-|]);
  try contradiction.

(** What the roundings leave of [100 * n * log2 x], for the tabulated
    sizes: never negative, and between 3.25 and 6.59 bits per character. *)
Lemma tabulated_entropy x l n :
  In (x, l) LOG2 -> 0 <= n ->
  0 <= round2 (float_mul (float_of_int n) l) /\
  (1 <= n -> 325 * n <= round2 (float_mul (float_of_int n) l) <= 659 * n).
Proof.
  intros Hin Hn. table_cases Hin;
  match goal with |- context [float_mul _ ?l] =>
    destruct (round2_float_mul n l Hn ltac:(cbn; lia) ltac:(cbn; lia))
      as (N & P & HN & HP & H1 & H2 & H3 & Hk)
  end;
  unfold units in H2; cbn [mantissa exponent] in H2;
  change (2 ^ 53) with 9007199254740992 in *;
  change (2 ^ 51) with 2251799813685248 in *;
  change (2 ^ (-51 + 51)) with 1 in *; change (2 ^ (-50 + 51)) with 2 in *;
  (split; [exact Hk | intros Hn1; lia]).
Qed.

(** With all four classes the alphabet has 94 symbols, and 13 characters
    reach 80 bits. *)
Lemma entropy_94 l n :
  In (94, l) LOG2 -> 13 <= n ->
  8000 <= round2 (float_mul (float_of_int n) l).
Proof.
  intros Hin Hn. unfold LOG2 in Hin. simpl in Hin.
  repeat (destruct Hin as [Hin | Hin];
          [first [discriminate Hin | injection Hin as <-]|]);
    try contradiction.
  destruct (round2_float_mul n {| mantissa := 7379810977495554; exponent := -50 |}
              ltac:(lia) ltac:(cbn; lia) ltac:(cbn; lia))
    as (N & P & HN & HP & H1 & H2 & H3 & Hk).
  unfold units in H2; cbn [mantissa exponent] in H2.
  change (2 ^ 53) with 9007199254740992 in *.
  change (2 ^ 51) with 2251799813685248 in *.
  change (2 ^ (-50 + 51)) with 2 in *. lia.
Qed.

Lemma squared_brackets i X :
  well_formed i -> brackets i X -> well_formed (squared i) /\ brackets (squared i) (X * X).
Proof.
  intros [[Hlo Hhi] Hs] [Ha Hb]. unfold squared, brackets, well_formed. cbn [lo hi scale].
  set (t := Z.max 0 (Z.log2 (hi i * hi i) - 128)).
  assert (Ht : 0 <= t) by (unfold t; lia).
  assert (Hp : 0 < 2 ^ t) by (apply Z.pow_pos_nonneg; lia).
  assert (Hps : 0 < 2 ^ scale i) by (apply Z.pow_pos_nonneg; lia).
  replace (2 ^ (2 * scale i + t)) with (2 ^ scale i * 2 ^ scale i * 2 ^ t)
    by (rewrite !Z.pow_add_r by lia; f_equal; replace (2 * scale i) with (scale i + scale i) by lia;
        now rewrite Z.pow_add_r by lia).
  pose proof (Z.div_mod (lo i * lo i) (2 ^ t) ltac:(lia)) as Hdl.
  pose proof (Z.mod_pos_bound (lo i * lo i) (2 ^ t) Hp) as Hml.
  pose proof (Z.div_mod (hi i * hi i + 2 ^ t - 1) (2 ^ t) ltac:(lia)) as Hdh.
  pose proof (Z.mod_pos_bound (hi i * hi i + 2 ^ t - 1) (2 ^ t) Hp) as Hmh.
  assert (Hll : 0 <= lo i * lo i) by nia.
  assert (Hlh : lo i * lo i <= hi i * hi i) by nia.
  assert (Hql : 0 <= lo i * lo i / 2 ^ t) by (apply Z.div_pos; lia).
  assert (Hqq : lo i * lo i / 2 ^ t <= (hi i * hi i + 2 ^ t - 1) / 2 ^ t)
    by (apply Z.div_le_mono; lia).
  set (ql := lo i * lo i / 2 ^ t) in *.
  set (qh := (hi i * hi i + 2 ^ t - 1) / 2 ^ t) in *.
  set (rl := (lo i * lo i) mod 2 ^ t) in *.
  set (rh := (hi i * hi i + 2 ^ t - 1) mod 2 ^ t) in *.
  set (S := 2 ^ scale i) in *. set (T := 2 ^ t) in *.
  clearbody ql qh rl rh S T.
  assert (HX0 : 0 <= X) by nia.
  split; [split; lia|].
  split.
  - assert (ql * T <= lo i * lo i) by lia.
    assert (lo i * lo i * (S * S) <= X * X).
    { replace (lo i * lo i * (S * S)) with ((lo i * S) * (lo i * S)) by ring.
      apply Z.mul_le_mono_nonneg; nia. }
    nia.
  - assert (hi i * hi i <= qh * T) by lia.
    assert (X * X <= hi i * hi i * (S * S)).
    { replace (hi i * hi i * (S * S)) with ((hi i * S) * (hi i * S)) by ring.
      apply Z.mul_le_mono_nonneg; nia. }
    nia.
Qed.

Lemma squarings_brackets k : forall i X,
  well_formed i -> brackets i X ->
  well_formed (squarings k i) /\ brackets (squarings k i) (X ^ 2 ^ Z.of_nat k).
Proof.
  induction k as [|k IH]; intros i X Hw Hb.
  - cbn [squarings]. change (2 ^ Z.of_nat 0) with 1. now rewrite Z.pow_1_r.
  - cbn [squarings]. destruct (squared_brackets i X Hw Hb) as [Hw' Hb'].
    destruct (IH _ _ Hw' Hb') as [Hw'' Hb'']. split; [exact Hw''|].
    replace (X ^ 2 ^ Z.of_nat (S k)) with ((X * X) ^ 2 ^ Z.of_nat k); [exact Hb''|].
    rewrite Nat2Z.inj_succ, Z.pow_succ_r by lia.
    rewrite Z.pow_mul_r by (try apply Z.pow_nonneg; lia).
    now rewrite Z.pow_2_r.
Qed.

Lemma between_spec x k p q :
  0 <= x -> 0 <= k -> between x (Z.to_nat k) p q = true ->
  2 ^ p < x ^ 2 ^ k < 2 ^ q.
Proof.
  intros Hx Hk H. unfold between in H.
  destruct (squarings_brackets (Z.to_nat k) (point x) x) as [[_ Hs] [Ha Hb]].
  { unfold well_formed, point. cbn. lia. }
  { unfold brackets, point. cbn. lia. }
  rewrite Z2Nat.id in Ha, Hb by exact Hk.
  set (i := squarings (Z.to_nat k) (point x)) in *. clearbody i.
  apply andb_prop in H as [H H4]. apply andb_prop in H as [H H3].
  apply andb_prop in H as [H1 H2].
  apply Z.leb_le in H1, H3. apply Z.ltb_lt in H2, H4.
  assert (Hps : 0 < 2 ^ scale i) by (apply Z.pow_pos_nonneg; lia).
  replace p with ((p - scale i) + scale i) by lia.
  replace q with ((q - scale i) + scale i) by lia.
  rewrite !Z.pow_add_r by lia.
  set (X := x ^ 2 ^ k) in *. clearbody X. nia.
Qed.

(** From a bracket of [x^(2^k)] to one of [x^n]. *)
Lemma pow_between x k p q n a b :
  0 < x -> 0 <= k -> 0 < n -> 0 <= a -> 0 <= p -> 0 <= q -> 0 <= b ->
  2 ^ p < x ^ 2 ^ k < 2 ^ q ->
  a * 2 ^ k <= p * n -> q * n <= b * 2 ^ k ->
  2 ^ a < x ^ n < 2 ^ b.
Proof.
  intros Hx Hk Hn Ha Hp Hq Hb [Hlo Hhi] Hpa Hqb.
  assert (HK : 0 < 2 ^ k) by (apply Z.pow_pos_nonneg; lia).
  set (K := 2 ^ k) in *. clearbody K.
  assert (E : (x ^ n) ^ K = (x ^ K) ^ n) by (rewrite <- !Z.pow_mul_r by lia; f_equal; lia).
  split.
  - apply (proj2 (Z.pow_lt_mono_l_iff (2 ^ a) (x ^ n) K
                    ltac:(apply Z.pow_nonneg; lia) ltac:(apply Z.pow_nonneg; lia) HK)).
    rewrite E, <- Z.pow_mul_r by lia.
    apply Z.le_lt_trans with ((2 ^ p) ^ n).
    + rewrite <- Z.pow_mul_r by lia. apply Z.pow_le_mono_r; lia.
    + apply Z.pow_lt_mono_l; [lia|]. split; [apply Z.pow_nonneg; lia | exact Hlo].
  - apply (proj2 (Z.pow_lt_mono_l_iff (x ^ n) (2 ^ b) K
                    ltac:(apply Z.pow_nonneg; lia) ltac:(apply Z.pow_nonneg; lia) HK)).
    rewrite E, <- (Z.pow_mul_r 2) by lia.
    apply Z.lt_le_trans with ((2 ^ q) ^ n).
    + apply Z.pow_lt_mono_l; [lia|]. split; [apply Z.pow_nonneg; lia | exact Hhi].
    + rewrite <- Z.pow_mul_r by lia. apply Z.pow_le_mono_r; lia.
Qed.

(** The tabulated doubles are the doubles nearest to the logarithms. *)
Lemma tabulated_is_nearest x l :
  In (x, l) LOG2 -> nearest_to_log2 x l.
Proof.
  intros Hin. unfold nearest_to_log2.
  table_cases Hin; cbn [mantissa exponent];
    (split; [lia|]); (split; [lia|]);
    (apply between_spec; [lia | lia | vm_compute; reflexivity]).
Qed.

Lemma charset_sizes_lookup :
  subscript CHARSET_SIZES "lowercase" = Ok 26 /\
  subscript CHARSET_SIZES "uppercase" = Ok 26 /\
  subscript CHARSET_SIZES "digits" = Ok 10 /\
  subscript CHARSET_SIZES "special" = Ok 32.
Proof. repeat split; vm_compute; reflexivity. Qed.

Lemma calculate_entropy_unfold p :
  calculate_entropy p =
  if alphabet_size p =? 0 then Ok 0
  else
    l <- math_log2 (alphabet_size p) ;;
    Ok (round2 (float_mul (float_of_int (len p)) l)).
Proof.
  destruct charset_sizes_lookup as (Hl & Hu & Hd & Hs).
  unfold calculate_entropy, add_charset, alphabet_size.
  rewrite re_search_lower, re_search_upper, re_search_digit, re_search_special.
  rewrite Hl, Hu, Hd, Hs.
  destruct (existsb is_lowercase p), (existsb is_uppercase p),
    (existsb is_digit p), (existsb is_special p); reflexivity.
Qed.

(** Every alphabet the four classes can give is in the table. *)
Lemma math_log2_alphabet p :
  alphabet_size p <> 0 ->
  exists l, math_log2 (alphabet_size p) = Ok l /\ In (alphabet_size p, l) LOG2.
Proof.
  unfold alphabet_size.
  destruct (existsb is_lowercase p), (existsb is_uppercase p),
    (existsb is_digit p), (existsb is_special p); intros Hne;
    try (exfalso; apply Hne; reflexivity);
    eexists; (split; [reflexivity|]);
    unfold LOG2; simpl; repeat first [left; reflexivity | right].
Qed.

Lemma len_nonneg p : 0 <= len p.
Proof. unfold len. lia. Qed.

Lemma calculate_entropy_total p :
  exists e, calculate_entropy p = Ok e /\ 0 <= e /\
    (if alphabet_size p =? 0 then e = 0
     else exists l,
         math_log2 (alphabet_size p) = Ok l /\
         In (alphabet_size p, l) LOG2 /\
         e = round2 (float_mul (float_of_int (len p)) l)).
Proof.
  rewrite calculate_entropy_unfold.
  destruct (Z.eqb_spec (alphabet_size p) 0) as [_|Hne].
  - exists 0. repeat split; lia.
  - destruct (math_log2_alphabet p Hne) as [l [Hl Hin]].
    rewrite Hl. cbn [bind]. eexists. split; [reflexivity|].
    split; [apply (tabulated_entropy _ l _ Hin (len_nonneg p))|].
    exists l. split; [reflexivity|]. split; [exact Hin | reflexivity].
Qed.

(** *** A password of any length *)

Lemma existsb_repeat {A} (f : A -> bool) (x : A) (n : nat) :
  (0 < n)%nat -> existsb f (repeat x n) = f x.
Proof.
  destruct n as [|n]; [intros H; inversion H|]. intros _. cbn [repeat existsb].
  destruct (f x) eqn:E; [reflexivity|]. cbn [orb].
  induction n as [|n IH]; [reflexivity|]. cbn [repeat existsb]. now rewrite E.
Qed.

Lemma a_and_zeros_len n : 0 <= n -> len (a_and_zeros n) = 1 + n.
Proof.
  intros Hn. unfold a_and_zeros, len.
  rewrite List.length_app, List.repeat_length, Nat2Z.inj_add, Z2Nat.id by exact Hn.
  reflexivity.
Qed.

Lemma a_and_zeros_alphabet n : 0 < n -> alphabet_size (a_and_zeros n) = 36.
Proof.
  intros Hn. assert (Hp : (0 < Z.to_nat n)%nat) by lia.
  unfold alphabet_size, a_and_zeros.
  rewrite !existsb_app, !(existsb_repeat _ _ _ Hp). reflexivity.
Qed.

Lemma a_and_zeros_entropy n :
  0 < n ->
  calculate_entropy (a_and_zeros n) =
  Ok (round2 (float_mul (float_of_int (1 + n))
                {| mantissa := 5820818077507252; exponent := -50 |})).
Proof.
  intros Hn.
  destruct (calculate_entropy_total (a_and_zeros n)) as (e & He & _ & Hf).
  rewrite He. f_equal.
  rewrite (a_and_zeros_alphabet n Hn), (a_and_zeros_len n) in Hf by lia.
  change (36 =? 0) with false in Hf. cbv iota in Hf.
  destruct Hf as (l & Hl & _ & ->).
  change (math_log2 36) with (Ok {| mantissa := 5820818077507252; exponent := -50 |}) in Hl.
  now injection Hl as <-.
Qed.

(** ** The blocks of [analyze] *)

Lemma snd_length_checks p st :
  snd (length_checks p st) =
  snd st + (if len p <? MIN_LENGTH then 0
            else if len p >=? RECOMMENDED_LENGTH then 3 else 1).
Proof. unfold length_checks. repeat case_match; simpl; lia. Qed.

Lemma snd_character_type_checks p st :
  snd (character_type_checks p st) =
  snd st + (if existsb is_lowercase p then 1 else 0)
         + (if existsb is_uppercase p then 1 else 0)
         + (if existsb is_digit p then 1 else 0)
         + (if existsb is_special p then 2 else 0).
Proof.
  unfold character_type_checks, checks. cbn [fold_left].
  unfold character_type_check.
  rewrite re_search_lower, re_search_upper, re_search_digit, re_search_special.
  destruct (existsb is_lowercase p), (existsb is_uppercase p),
    (existsb is_digit p), (existsb is_special p); simpl; lia.
Qed.

Lemma snd_entropy_checks e st :
  snd (entropy_checks e st) =
  snd st + (if e >=? ENTROPY_THRESHOLD_STRONG then 2 else 0).
Proof.
  unfold entropy_checks, ENTROPY_THRESHOLD_WEAK, ENTROPY_THRESHOLD_STRONG.
  destruct (Z.ltb_spec e 5000), (Z.geb_spec e 8000); simpl; lia.
Qed.

(** The feedback lines of the blocks other than the common-password and
    pattern block are never one of the two warnings. *)

Lemma in_append w line st :
  In w (fst (append line st)) <-> In w (fst st) \/ line = w.
Proof.
  unfold append. cbn [fst]. rewrite in_app_iff. simpl. tauto.
Qed.

Lemma in_set_score w f st : In w (fst (set_score f st)) <-> In w (fst st).
Proof. reflexivity. Qed.

Ltac other_line H :=
  exfalso; unfold common_warning, pattern_warning in H;
  first [discriminate H | vm_compute in H; discriminate H].

Lemma in_length_checks w p st :
  is_warning w -> In w (fst (length_checks p st)) <-> In w (fst st).
Proof.
  intros Hw. unfold length_checks.
  repeat case_match; rewrite ?in_set_score, in_append;
    (split; [intros [Hi|Hl]; [exact Hi|] | tauto]);
    destruct Hw as [-> | ->]; other_line Hl.
Qed.

Lemma in_character_type_check w p st check :
  In check checks ->
  is_warning w ->
  In w (fst (character_type_check p st check)) <-> In w (fst st).
Proof.
  intros Hc Hw. unfold checks in Hc. simpl in Hc.
  destruct Hc as [<- | [<- | [<- | [<- | []]]]];
    unfold character_type_check; case_match;
    rewrite ?in_set_score, in_append;
    (split; [intros [Hi|Hl]; [exact Hi|] | tauto]);
    destruct Hw as [-> | ->]; other_line Hl.
Qed.

Lemma in_character_type_checks w p st :
  is_warning w -> In w (fst (character_type_checks p st)) <-> In w (fst st).
Proof.
  intros Hw. unfold character_type_checks.
  assert (Hall : forall check, In check checks -> In check checks) by tauto.
  revert st Hall. generalize checks at 1 3 as l.
  induction l as [|check l IH]; intros st Hall; [reflexivity|].
  cbn [fold_left]. rewrite IH by (intros; apply Hall; now right).
  apply in_character_type_check; [apply Hall; now left | exact Hw].
Qed.

Lemma in_entropy_checks w e st :
  is_warning w -> In w (fst (entropy_checks e st)) <-> In w (fst st).
Proof.
  intros Hw. unfold entropy_checks. cbv zeta.
  assert (He : "Password entropy: " +:+ float_str e +:+ " bits." <> w).
  { intros Hl. cbn [String.append] in Hl. destruct Hw as [-> | ->]; other_line Hl. }
  assert (Hlow : "Low entropy; use a longer or more complex password."%string <> w).
  { intros Hl. destruct Hw as [-> | ->]; other_line Hl. }
  assert (Hhigh : "High entropy: Excellent brute-force resistance!"%string <> w).
  { intros Hl. destruct Hw as [-> | ->]; other_line Hl. }
  repeat case_match; rewrite ?in_set_score, ?in_append; tauto.
Qed.

Section ScoringEngine.

Variable lower : str -> str.

Lemma in_common_and_pattern_checks self p st :
  (In common_warning (fst (common_and_pattern_checks lower self p st)) <->
   In common_warning (fst st) \/ lower p ∈ common_passwords self) /\
  (In pattern_warning (fst (common_and_pattern_checks lower self p st)) <->
   In pattern_warning (fst st) \/
   ((lower p ∉ common_passwords self) /\ check_patterns lower p = true)).
Proof.
  unfold common_and_pattern_checks.
  destruct (bool_decide_reflect (lower p ∈ common_passwords self)) as [Hin|Hnot].
  - rewrite !in_set_score, !in_append. split; [tauto|].
    split; [intros [H|H]; [now left | discriminate H] | tauto].
  - destruct (check_patterns lower p).
    + rewrite !in_set_score, !in_append. split; [|tauto].
      split; [intros [H|H]; [now left | discriminate H] | tauto].
    + split; [tauto|]. split; [tauto|]. intros [H|[_ H]]; [exact H | discriminate H].
Qed.

Lemma check_patterns_spec p :
  check_patterns lower p = true <-> has_run p \/ has_weak_substring lower p.
Proof.
  unfold check_patterns, has_run, has_weak_substring. cbn [re_search].
  fold weak_substrings.
  destruct (search_repeat3 p) eqn:Hr.
  - apply search_repeat3_spec in Hr. tauto.
  - assert (Hno : ~ exists c, c <> LF /\ contains [c; c; c] p).
    { intros H. apply search_repeat3_spec in H. congruence. }
    destruct (existsb _ weak_substrings) eqn:Hs.
    + apply existsb_exists in Hs. destruct Hs as [sub [Hin Hsub]].
      apply str_in_spec in Hsub. split; [|reflexivity].
      intros _. right. now exists sub.
    + split; [discriminate|]. intros [H | [sub [Hin Hsub]]]; [tauto|].
      apply str_in_spec in Hsub.
      assert (existsb (fun sub => str_in sub (lower p)) weak_substrings = true)
        by (apply existsb_exists; now exists sub).
      congruence.
Qed.

Lemma snd_common_and_pattern_checks self p st :
  snd (common_and_pattern_checks lower self p st) =
  if bool_decide (lower p ∈ common_passwords self) then 0
  else if check_patterns lower p then Z.min (snd st) 2
  else snd st.
Proof. unfold common_and_pattern_checks. repeat case_match; reflexivity. Qed.

(** The locals of [analyze] before the entropy block. *)
Lemma base_score_bounds p :
  0 <= snd (character_type_checks p (length_checks p ([], 0))) <= 8.
Proof.
  rewrite snd_character_type_checks, snd_length_checks. simpl.
  repeat case_match; lia.
Qed.

(** [analyze] on a non-empty password, block by block. *)
Lemma analyze_cons self c q :
  exists e, calculate_entropy (c :: q) = Ok e /\ 0 <= e /\
    analyze lower self (c :: q) =
    Ok (let st := entropy_checks e
                    (common_and_pattern_checks lower self (c :: q)
                       (character_type_checks (c :: q)
                          (length_checks (c :: q) ([], 0)))) in
        {| strength := strength_rating (snd st); score := snd st;
           entropy := e; feedback := fst st |}).
Proof.
  destruct (calculate_entropy_total (c :: q)) as [e [He [Hpos _]]].
  exists e. split; [exact He|]. split; [exact Hpos|].
  unfold analyze. rewrite He. cbn [bind].
  now destruct (entropy_checks e _).
Qed.

(** The score of a non-empty password: the base score, overridden, plus the
    entropy bonus. *)
Lemma analyze_score self c q :
  exists r, analyze lower self (c :: q) = Ok r /\
    calculate_entropy (c :: q) = Ok (entropy r) /\
    strength r = strength_rating (score r) /\
    score r =
      (if bool_decide (lower (c :: q) ∈ common_passwords self) then 0
       else if check_patterns lower (c :: q)
            then Z.min (snd (character_type_checks (c :: q)
                               (length_checks (c :: q) ([], 0)))) 2
            else snd (character_type_checks (c :: q)
                        (length_checks (c :: q) ([], 0))))
      + (if entropy r >=? ENTROPY_THRESHOLD_STRONG then 2 else 0).
Proof.
  destruct (analyze_cons self c q) as [e [He [_ Ha]]].
  eexists. split; [exact Ha|]. cbn [strength score entropy].
  split; [exact He|]. split; [reflexivity|].
  now rewrite snd_entropy_checks, snd_common_and_pattern_checks.
Qed.

(** The warnings in the feedback of a non-empty password tell which branch
    of the common-password and pattern block was taken. *)
Lemma analyze_flagged self c q r :
  analyze lower self (c :: q) = Ok r ->
  (In common_warning (feedback r) <-> lower (c :: q) ∈ common_passwords self) /\
  (In pattern_warning (feedback r) <->
   (lower (c :: q) ∉ common_passwords self) /\ check_patterns lower (c :: q) = true).
Proof.
  destruct (analyze_cons self c q) as [e [_ [_ Ha]]].
  rewrite Ha. intros [= <-]. cbn [feedback].
  destruct (in_common_and_pattern_checks self (c :: q)
              (character_type_checks (c :: q) (length_checks (c :: q) ([], 0))))
    as [Hc Hp].
  rewrite !in_entropy_checks by (unfold is_warning; tauto).
  rewrite Hc, Hp.
  rewrite !in_character_type_checks, !in_length_checks by (unfold is_warning; tauto).
  simpl. tauto.
Qed.

Lemma score_bounds self p r :
  analyze lower self p = Ok r -> 0 <= score r <= 10.
Proof.
  destruct p as [|c q].
  - intros [= <-]. simpl. lia.
  - destruct (analyze_score self c q) as [r' [Ha [_ [_ Hs]]]].
    rewrite Ha. intros [= <-]. rewrite Hs.
    pose proof (base_score_bounds (c :: q)).
    repeat case_match; lia.
Qed.

End ScoringEngine.

(** ** The store-passing [analyze] *)

Lemma list_append_at st l items x :
  list_objects st !! l = Some items ->
  list_append l x st = (with_list st l (items ++ [x]), Ok tt).
Proof. intros H. unfold list_append. now rewrite H. Qed.

Lemma with_list_lookup st l items items' :
  list_objects st !! l = Some items' ->
  list_objects (with_list st l items) !! l = Some items.
Proof.
  intros H. cbn [with_list list_objects].
  apply list_lookup_insert_eq. now apply lookup_lt_Some in H.
Qed.

Lemma with_list_again st l a b :
  with_list (with_list st l a) l b = with_list st l b.
Proof.
  unfold with_list. cbn [dict_CHARSET_SIZES self_common_passwords list_objects].
  f_equal. apply list_insert_insert_eq.
Qed.

Lemma with_list_same st l items :
  list_objects st !! l = Some items -> with_list st l items = st.
Proof.
  intros H. destruct st as [d s ls]. unfold with_list. cbn in *.
  f_equal. now apply list_insert_id.
Qed.

Lemma with_list_new st items items' :
  with_list {| dict_CHARSET_SIZES := dict_CHARSET_SIZES st;
               self_common_passwords := self_common_passwords st;
               list_objects := list_objects st ++ [items] |}
    (length (list_objects st)) items' =
  {| dict_CHARSET_SIZES := dict_CHARSET_SIZES st;
     self_common_passwords := self_common_passwords st;
     list_objects := list_objects st ++ [items'] |}.
Proof.
  unfold with_list. cbn [dict_CHARSET_SIZES self_common_passwords list_objects].
  f_equal. rewrite insert_app_r_alt by lia. now rewrite Nat.sub_diag.
Qed.

Ltac step_append H :=
  unfold bindM; rewrite (list_append_at _ _ _ _ H); unfold ret;
  cbn [fst snd append set_score]; try reflexivity.

Lemma length_checks_m_spec p fb loc st :
  list_objects st !! fb = Some (fst loc) ->
  length_checks_m p fb (snd loc) st =
  (with_list st fb (fst (length_checks p loc)), Ok (snd (length_checks p loc))).
Proof.
  intros H. unfold length_checks_m, length_checks.
  destruct (len p <? MIN_LENGTH); [step_append H|].
  destruct (len p >=? RECOMMENDED_LENGTH); step_append H.
Qed.

Lemma character_type_check_m_spec p fb loc check st :
  list_objects st !! fb = Some (fst loc) ->
  character_type_check_m p fb (snd loc) check st =
  (with_list st fb (fst (character_type_check p loc check)),
   Ok (snd (character_type_check p loc check))).
Proof.
  intros H. destruct check as [[pattern desc] points].
  unfold character_type_check_m, character_type_check.
  destruct (re_search pattern p); step_append H.
Qed.

Lemma for_each_checks_spec p fb cs loc st :
  list_objects st !! fb = Some (fst loc) ->
  for_each (character_type_check_m p fb) cs (snd loc) st =
  (with_list st fb (fst (fold_left (character_type_check p) cs loc)),
   Ok (snd (fold_left (character_type_check p) cs loc))).
Proof.
  revert loc st. induction cs as [|check cs IH]; intros loc st H.
  - cbn [for_each fold_left]. unfold ret. now rewrite (with_list_same _ _ _ H).
  - cbn [for_each fold_left]. unfold bindM.
    rewrite (character_type_check_m_spec _ _ _ _ _ H).
    rewrite IH by (eapply with_list_lookup; exact H).
    now rewrite with_list_again.
Qed.

Lemma common_and_pattern_checks_m_spec lower p fb loc st :
  list_objects st !! fb = Some (fst loc) ->
  common_and_pattern_checks_m lower p fb (snd loc) st =
  (with_list st fb
     (fst (common_and_pattern_checks lower
             {| common_passwords := self_common_passwords st |} p loc)),
   Ok (snd (common_and_pattern_checks lower
              {| common_passwords := self_common_passwords st |} p loc))).
Proof.
  intros H. unfold common_and_pattern_checks_m, common_and_pattern_checks.
  unfold bindM at 1. unfold self_attr. cbn [common_passwords].
  destruct (bool_decide (lower p ∈ self_common_passwords st)); [step_append H|].
  destruct (check_patterns lower p); [step_append H|].
  unfold ret. now rewrite (with_list_same _ _ _ H).
Qed.

Lemma entropy_checks_m_spec e fb loc st :
  list_objects st !! fb = Some (fst loc) ->
  entropy_checks_m e fb (snd loc) st =
  (with_list st fb (fst (entropy_checks e loc)), Ok (snd (entropy_checks e loc))).
Proof.
  intros H. unfold entropy_checks_m, entropy_checks. cbv zeta.
  unfold bindM at 1. rewrite (list_append_at _ _ _ _ H).
  assert (H' : list_objects (with_list st fb (fst loc ++ ["Password entropy: " +:+ float_str e +:+ " bits."]))
               !! fb = Some (fst (append ("Password entropy: " +:+ float_str e +:+ " bits.") loc))).
  { eapply with_list_lookup. exact H. }
  destruct (e <? ENTROPY_THRESHOLD_WEAK).
  { step_append H'. now rewrite with_list_again. }
  destruct (e >=? ENTROPY_THRESHOLD_STRONG).
  { step_append H'. now rewrite with_list_again. }
  unfold ret. reflexivity.
Qed.

Lemma calculate_entropy_m_spec p st :
  dict_CHARSET_SIZES st = CHARSET_SIZES ->
  calculate_entropy_m p st = (st, calculate_entropy p).
Proof.
  intros Hd. destruct st as [d s ls]. cbn in Hd. subst d.
  destruct charset_sizes_lookup as (Hl & Hu & Hdg & Hs).
  unfold calculate_entropy_m, calculate_entropy, add_charset_m, add_charset,
    global_subscript, bindM, ret, lift.
  destruct (re_search re_lower p), (re_search re_upper p),
    (re_search re_digit p), (re_search re_special p);
    cbn [dict_CHARSET_SIZES]; rewrite ?Hl, ?Hu, ?Hdg, ?Hs; reflexivity.
Qed.

(** On a store where [CHARSET_SIZES] is as the module binds it, the call
    returns what [analyze] returns, in a list object of its own, and changes
    nothing else. *)
Lemma analyze_m_spec lower p st :
  dict_CHARSET_SIZES st = CHARSET_SIZES ->
  exists r,
    analyze lower {| common_passwords := self_common_passwords st |} p = Ok r /\
    analyze_m lower p st =
    ({| dict_CHARSET_SIZES := dict_CHARSET_SIZES st;
        self_common_passwords := self_common_passwords st;
        list_objects := list_objects st ++ [feedback r] |},
     Ok {| o_strength := strength r; o_score := score r; o_entropy := entropy r;
           o_feedback := length (list_objects st) |}).
Proof.
  intros Hd. destruct p as [|c q].
  - eexists. split; [reflexivity|]. reflexivity.
  - destruct (analyze_cons lower {| common_passwords := self_common_passwords st |} c q)
      as [e [He [_ Ha]]].
    eexists. split; [exact Ha|]. cbn [strength score entropy feedback].
    unfold analyze_m. unfold bindM at 1. unfold new_list.
    set (st0 := {| dict_CHARSET_SIZES := dict_CHARSET_SIZES st;
                   self_common_passwords := self_common_passwords st;
                   list_objects := list_objects st ++ [[]] |}).
    set (fb := length (list_objects st)).
    assert (H0 : list_objects st0 !! fb = Some (fst (([], 0) : locals))).
    { unfold st0, fb. cbn [list_objects fst]. now apply list_lookup_middle. }
    cbv zeta. unfold bindM at 1.
    change (length_checks_m (c :: q) fb 0 st0)
      with (length_checks_m (c :: q) fb (snd (([], 0) : locals)) st0).
    rewrite (length_checks_m_spec (c :: q) fb ([], 0) st0 H0). cbv beta iota.
    set (loc1 := length_checks (c :: q) ([], 0)).
    assert (H1 : list_objects (with_list st0 fb (fst loc1)) !! fb = Some (fst loc1))
      by (eapply with_list_lookup; exact H0).
    unfold bindM at 1.
    rewrite (for_each_checks_spec (c :: q) fb checks loc1 _ H1), with_list_again.
    cbv beta iota. fold (character_type_checks (c :: q) loc1).
    set (loc2 := character_type_checks (c :: q) loc1).
    assert (H2 : list_objects (with_list st0 fb (fst loc2)) !! fb = Some (fst loc2))
      by (eapply with_list_lookup; exact H0).
    unfold bindM at 1.
    rewrite (common_and_pattern_checks_m_spec lower (c :: q) fb loc2 _ H2), with_list_again.
    cbv beta iota.
    change (self_common_passwords (with_list st0 fb (fst loc2)))
      with (self_common_passwords st).
    set (loc3 := common_and_pattern_checks lower _ (c :: q) loc2).
    assert (H3 : list_objects (with_list st0 fb (fst loc3)) !! fb = Some (fst loc3))
      by (eapply with_list_lookup; exact H0).
    unfold bindM at 1.
    rewrite (calculate_entropy_m_spec (c :: q) (with_list st0 fb (fst loc3)) Hd), He.
    cbv beta iota. unfold bindM at 1.
    rewrite (entropy_checks_m_spec e fb loc3 _ H3), with_list_again.
    cbv beta iota.
    unfold ret. unfold st0, fb. rewrite with_list_new. reflexivity.
Qed.

Lemma contents_returned st (r : AnalysisResult) :
  contents
    {| dict_CHARSET_SIZES := dict_CHARSET_SIZES st;
       self_common_passwords := self_common_passwords st;
       list_objects := list_objects st ++ [feedback r] |}
    {| o_strength := strength r; o_score := score r; o_entropy := entropy r;
       o_feedback := length (list_objects st) |} = Some r.
Proof.
  unfold contents. cbn [list_objects o_feedback o_strength o_score o_entropy].
  rewrite list_lookup_middle by reflexivity. now destruct r.
Qed.

Lemma unchanged_new_list st items :
  unchanged st
    {| dict_CHARSET_SIZES := dict_CHARSET_SIZES st;
       self_common_passwords := self_common_passwords st;
       list_objects := list_objects st ++ [items] |}.
Proof.
  split; [reflexivity|]. split; [reflexivity|].
  intros l items' H. cbn [list_objects]. now apply lookup_app_l_Some.
Qed.

(** ** Running the model *)

Lemma analyze_unfold lower self p :
  analyze lower self p =
  match p with
  | [] => Ok {| strength := "Invalid"; score := 0; entropy := 0;
                feedback := ["Password cannot be empty."%string] |}
  | _ :: _ =>
      e <- calculate_entropy p ;;
      Ok (let st := entropy_checks e
                      (common_and_pattern_checks lower self p
                         (character_type_checks p (length_checks p ([], 0)))) in
          {| strength := strength_rating (snd st); score := snd st;
             entropy := e; feedback := fst st |})
  end.
Proof.
  destruct p as [|c q]; [reflexivity|]. unfold analyze.
  destruct (calculate_entropy (c :: q)) as [e|]; [|reflexivity].
  cbn [bind]. now destruct (entropy_checks e _).
Qed.

Ltac run_entropy := vm_compute; reflexivity.

Ltac run_analyze := vm_compute; reflexivity.

Example entropy_ex2 : calculate_entropy (lit "Abc123!@") = Ok 5244.
Proof. run_entropy. Qed.

(** The model against the hardware: the conversion of a 62-bit int, and
    two products, one of them where rounding the exact product to two
    places would give one hundredth more. *)
Example float_of_int_hardware :
  Prim2SF (PrimFloat.of_uint63 (Uint63.of_Z (2 ^ 62 - 12345))) =
  S754_finite false 9007199254740968 9 /\
  float_of_int (2 ^ 62 - 12345) = {| mantissa := 9007199254740968; exponent := 9 |} /\
  Prim2SF (PrimFloat.of_uint63 (Uint63.of_Z (2 ^ 53 + 1))) =
  S754_finite false 4503599627370496 1 /\
  float_of_int (2 ^ 53 + 1) = {| mantissa := 4503599627370496; exponent := 1 |} /\
  Prim2SF (PrimFloat.of_uint63 (Uint63.of_Z (2 ^ 53 + 3))) =
  S754_finite false 4503599627370498 1 /\
  float_of_int (2 ^ 53 + 3) = {| mantissa := 4503599627370498; exponent := 1 |}.
Proof. repeat split; vm_compute; reflexivity. Qed.

Example float_mul_hardware :
  Prim2SF (PrimFloat.mul (hardware (float_of_int 8))
             (hardware {| mantissa := 5292224640774425; exponent := -50 |})) =
  S754_finite false 5292224640774425 (-47) /\
  float_mul (float_of_int 8) {| mantissa := 5292224640774425; exponent := -50 |} =
  {| mantissa := 5292224640774425; exponent := -47 |} /\
  Prim2SF (PrimFloat.mul (hardware (float_of_int 2981324))
             (hardware {| mantissa := 5820818077507252; exponent := -50 |})) =
  S754_finite false 8274910275509944 (-29) /\
  float_mul (float_of_int 2981324)
    {| mantissa := 5820818077507252; exponent := -50 |} =
  {| mantissa := 8274910275509944; exponent := -29 |}.
Proof. repeat split; vm_compute; reflexivity. Qed.

Example round2_ex :
  round2 (float_mul (float_of_int 8)
            {| mantissa := 5292224640774425; exponent := -50 |}) = 3760 /\
  round2 (float_mul (float_of_int 2981324)
            {| mantissa := 5820818077507252; exponent := -50 |}) = 1541322148.
Proof. split; vm_compute; reflexivity. Qed.

(** The exact product behind the last line: [100 * 2981324 * log2 36] lies
    between 1541322148.5 and 1541322149.5, where the product of the floats
    has fallen below 1541322148.5 hundredths. *)
Example exact_product_ex :
  math_log2 36 = Ok {| mantissa := 5820818077507252; exponent := -50 |} /\
  2 ^ (2 * 1541322149 - 1) < 36 ^ (200 * 2981324) < 2 ^ (2 * 1541322149 + 1).
Proof.
  split; [vm_compute; reflexivity|].
  apply (pow_between 36 80 6250055819714810391511062 6250055819714810391511063
           (200 * 2981324) (2 * 1541322149 - 1) (2 * 1541322149 + 1)).
  1-7: lia.
  - apply between_spec; [lia | lia | vm_compute; reflexivity].
  - apply Z.leb_le. vm_compute. reflexivity.
  - apply Z.leb_le. vm_compute. reflexivity.
Qed.

Example analyze_ex1 :
  analyze ascii_lower default_analyzer (lit "abcdefgh") =
  Ok {| strength := "Weak"; score := 2; entropy := 3760;
        feedback := [ "Good length, but consider 12+ characters.";
                      "Contains lowercase letters: Good.";
                      "Add uppercase letters for better strength.";
                      "Add numbers for better strength.";
                      "Add special characters for better strength.";
                      "WARNING: Predictable pattern detected (e.g., sequences).";
                      "Password entropy: 37.6 bits.";
                      "Low entropy; use a longer or more complex password." ]%string |}.
Proof. run_analyze. Qed.

(** * The claims *)

(** ** C10: [analyze] raises nothing *)

(** C10. [analyze] is total: for every string (any code points, any
    length) and every set of common passwords it returns an
    [AnalysisResult]; neither the [KeyError] of a dictionary lookup nor the
    [ValueError] of [math.log2] can be raised. *)
Theorem analyze_total (lower : str -> str) (self : PasswordAnalyzer) (password : str) :
  exists r, analyze lower self password = Ok r.
Proof.
  destruct password as [|c q].
  - eexists. reflexivity.
  - destruct (analyze_cons lower self c q) as [e [_ [_ Ha]]].
    eexists. exact Ha.
Qed.

(** ** C5: the empty password *)

(** C5. For the empty password [analyze] returns exactly
    [{strength: Invalid, score: 0, entropy: 0.0,
      feedback: ["Password cannot be empty."]}], whatever the set of common
    passwords holds: no other check contributes to the result. *)
Theorem analyze_empty (lower : str -> str) (self : PasswordAnalyzer) :
  analyze lower self [] =
  Ok {| strength := "Invalid"; score := 0; entropy := 0;
        feedback := ["Password cannot be empty."%string] |}.
Proof. reflexivity. Qed.

(** ** C7: the entropy estimate *)

(** C7, as the code has it. For every password [calculate_entropy] returns
    a value [e >= 0]; it is [0.0] when no character class is present, and
    otherwise [len(password) * log2(alphabet_size)] rounded to two decimal
    places, where the alphabet size sums 26, 26, 10 and 32 over the classes
    present and the product and the rounding are those of the floats:
    [log2] is the double [l] nearest to the logarithm of the alphabet size,
    the product is the double nearest to [len(password) * l], and
    [round(_, 2)] takes the decimal with two places nearest to that double.
    On ["abcdefgh"] the alphabet size is 26 and the entropy 37.60 bits. *)
Theorem calculate_entropy_formula :
  (forall password, exists e,
      calculate_entropy password = Ok e /\ 0 <= e /\
      (if alphabet_size password =? 0 then e = 0
       else exists l,
           math_log2 (alphabet_size password) = Ok l /\
           nearest_to_log2 (alphabet_size password) l /\
           e = round2 (float_mul (float_of_int (len password)) l))) /\
  alphabet_size (lit "abcdefgh") = 26 /\
  calculate_entropy (lit "abcdefgh") = Ok 3760.
Proof.
  split.
  - intros password.
    destruct (calculate_entropy_total password) as (e & He & H0 & Hf).
    exists e. split; [exact He|]. split; [exact H0|].
    destruct (alphabet_size password =? 0); [exact Hf|].
    destruct Hf as (l & Hl & Hin & Hf). exists l.
    split; [exact Hl|]. split; [exact (tabulated_is_nearest _ _ Hin) | exact Hf].
  - split; [reflexivity | run_entropy].
Qed.

(** C7 as stated fails on a very long password. The letter a followed by
    2,981,323 zeros has 2,981,324 characters over an alphabet of 36;
    [100 * len * log2 36] lies between 1541322148.5 and 1541322149.5, so
    the product rounded to two decimal places is 15413221.49. The product
    of the floats is a double below 15413221.485, and [calculate_entropy]
    returns 15413221.48. *)
Lemma entropy_not_exactly_rounded :
  len long_password = 2981324 /\ alphabet_size long_password = 36 /\
  calculate_entropy long_password = Ok 1541322148 /\
  exactly_rounded (len long_password) (alphabet_size long_password) 1541322149 /\
  ~ exactly_rounded (len long_password) (alphabet_size long_password) 1541322148.
Proof.
  assert (E : 2 * 1541322148 + 1 = 2 * 1541322149 - 1) by reflexivity.
  assert (Hn : 0 < 2981323) by reflexivity.
  assert (Hlen : len long_password = 2981324)
    by exact (a_and_zeros_len 2981323 (Z.lt_le_incl _ _ Hn)).
  assert (Hsize : alphabet_size long_password = 36)
    by exact (a_and_zeros_alphabet 2981323 Hn).
  split; [exact Hlen|]. split; [exact Hsize|].
  split.
  - unfold long_password. rewrite (a_and_zeros_entropy 2981323 Hn).
    vm_compute. reflexivity.
  - rewrite Hlen, Hsize. unfold exactly_rounded.
    destruct exact_product_ex as [_ [H1 H2]].
    split.
    + split; [apply Z.lt_le_incl; exact H1 | exact H2].
    + intros [_ H3]. rewrite E in H3.
      exact (Z.lt_irrefl _ (Z.lt_trans _ _ _ H1 H3)).
Qed.

(** ** C1: common passwords *)

(** C1, as the code has it. A password whose lower-casing is in the set of
    common passwords loses its length and character-class points; its score
    is 0 when the entropy is below 80 bits and 2, the entropy bonus, from 80
    bits on. *)
Theorem common_password_score (lower : str -> str) (self : PasswordAnalyzer)
    (password : str) :
  lower password ∈ common_passwords self ->
  exists r, analyze lower self password = Ok r /\
    score r = (if entropy r >=? ENTROPY_THRESHOLD_STRONG then 2 else 0).
Proof.
  intros Hin. destruct password as [|c q].
  - eexists. split; reflexivity.
  - destruct (analyze_score lower self c q) as [r [Ha [_ [_ Hs]]]].
    exists r. split; [exact Ha|]. rewrite Hs.
    rewrite bool_decide_true by exact Hin. reflexivity.
Qed.

Lemma common_password_score_witness :
  ascii_lower (lit "PassWord") ∈ common_passwords default_analyzer /\
  exists r, analyze ascii_lower default_analyzer (lit "PassWord") = Ok r /\
    score r = (if entropy r >=? ENTROPY_THRESHOLD_STRONG then 2 else 0).
Proof.
  assert (H : ascii_lower (lit "PassWord") ∈ common_passwords default_analyzer)
    by (vm_compute; reflexivity).
  split; [exact H|].
  exact (common_password_score ascii_lower default_analyzer (lit "PassWord") H).
Defined.

(** C1 as stated fails: a pass phrase of 25 lower-case letters that is in
    the set of common passwords has 117.51 bits of entropy, and scores 2. *)
Lemma common_password_scores_two :
  ascii_lower (lit "correcthorsebatterystaple") ∈ common_passwords phrase_analyzer /\
  analyze ascii_lower phrase_analyzer (lit "correcthorsebatterystaple") =
  Ok {| strength := "Weak"; score := 2; entropy := 11751;
        feedback := [ "Excellent! Password length is strong (12+ characters).";
                      "Contains lowercase letters: Good.";
                      "Add uppercase letters for better strength.";
                      "Add numbers for better strength.";
                      "Add special characters for better strength.";
                      "WARNING: Common password detected! Easily guessable.";
                      "Password entropy: 117.51 bits.";
                      "High entropy: Excellent brute-force resistance!" ]%string |}.
Proof. split; [vm_compute; reflexivity | run_analyze]. Qed.

(** ** C2: predictable patterns *)

(** C2, as the code has it. A password that is not a common one and holds a
    run of three equal characters other than the line feed, or whose
    lower-casing holds one of the weak substrings, keeps at most 2 points
    from length and character classes: its score is at most 2 when the
    entropy is below 80 bits, and at most 4 with the entropy bonus. *)
Theorem pattern_score_cap (lower : str -> str) (self : PasswordAnalyzer)
    (password : str) :
  lower password ∉ common_passwords self ->
  has_run password \/ has_weak_substring lower password ->
  exists r, analyze lower self password = Ok r /\
    score r <= 4 /\
    (entropy r < ENTROPY_THRESHOLD_STRONG -> score r <= 2).
Proof.
  intros Hnot Hpat. destruct password as [|c q].
  - eexists. split; [reflexivity|]. simpl. lia.
  - apply check_patterns_spec in Hpat.
    destruct (analyze_score lower self c q) as [r [Ha [_ [_ Hs]]]].
    exists r. split; [exact Ha|]. rewrite Hs.
    rewrite bool_decide_false by exact Hnot. rewrite Hpat.
    destruct (Z.geb_spec (entropy r) ENTROPY_THRESHOLD_STRONG); lia.
Qed.

Lemma pattern_score_cap_witness :
  (ascii_lower (lit "aaaaaaaa") ∉ common_passwords default_analyzer) /\
  (has_run (lit "aaaaaaaa") \/ has_weak_substring ascii_lower (lit "aaaaaaaa")) /\
  exists r, analyze ascii_lower default_analyzer (lit "aaaaaaaa") = Ok r /\
    score r <= 4 /\
    (entropy r < ENTROPY_THRESHOLD_STRONG -> score r <= 2).
Proof.
  assert (H1 : ascii_lower (lit "aaaaaaaa") ∉ common_passwords default_analyzer)
    by (vm_compute; discriminate).
  assert (H2 : has_run (lit "aaaaaaaa") \/ has_weak_substring ascii_lower (lit "aaaaaaaa")).
  { left. exists 97%N. split; [discriminate|]. exists [], (lit "aaaaa"). reflexivity. }
  split; [exact H1|]. split; [exact H2|].
  exact (pattern_score_cap ascii_lower default_analyzer (lit "aaaaaaaa") H1 H2).
Defined.

(** C2 as stated fails twice. ["qweRTY!7uiopZX"] holds the weak substring
    ["qwe"], is capped at 2 and then earns the entropy bonus: score 4.
    Eight line feeds are a run of one repeated character that [(.)\1{2,}]
    does not match, and score 3. *)
Lemma pattern_scores_above_two :
  ((ascii_lower (lit "qweRTY!7uiopZX") ∉ common_passwords default_analyzer) /\
   contains (lit "qwe") (ascii_lower (lit "qweRTY!7uiopZX")) /\
   exists r, analyze ascii_lower default_analyzer (lit "qweRTY!7uiopZX") = Ok r /\
     score r = 4) /\
  ((ascii_lower (repeat LF 8) ∉ common_passwords default_analyzer) /\
   contains [LF; LF; LF] (repeat LF 8) /\
   exists r, analyze ascii_lower default_analyzer (repeat LF 8) = Ok r /\
     score r = 3).
Proof.
  split; (split; [vm_compute; discriminate|]); split.
  - exists [], (lit "rty!7uiopzx"). reflexivity.
  - eexists. split; [run_analyze | reflexivity].
  - exists [], (repeat LF 5). reflexivity.
  - eexists. split; [run_analyze | reflexivity].
Qed.

(** ** C4: the score ceiling *)

(** C4, as the code has it. The maximum score [analyze] can return is 10:
    3 for the length, 1 + 1 + 1 + 2 for the four character classes and 2
    for the entropy. No input scores more, and ["Xk7#mQ9$vL2&pR"] scores 10. *)
Theorem max_score_is_10 :
  (forall lower self password r,
      analyze lower self password = Ok r -> 0 <= score r <= 3 + (1 + 1 + 1 + 2) + 2) /\
  (exists r, analyze ascii_lower default_analyzer (lit "Xk7#mQ9$vL2&pR") = Ok r /\
     score r = 10).
Proof.
  split.
  - intros lower self password r Ha.
    pose proof (score_bounds lower self password r Ha). lia.
  - eexists. split; [run_analyze | reflexivity].
Qed.

(** C4 as stated fails: no password, set of common passwords and lower-casing
    make [analyze] return 12. *)
Lemma score_12_unreachable :
  ~ exists lower self password r,
      analyze lower self password = Ok r /\ score r = 12.
Proof.
  intros (lower & self & password & r & Ha & Hs).
  pose proof (score_bounds lower self password r Ha). lia.
Qed.

(** ** C6: the strength label *)

Lemma strength_rating_spec s :
  (strength_rating s = "Strong"%string <-> 10 <= s) /\
  (strength_rating s = "Moderate"%string <-> 6 <= s < 10) /\
  (strength_rating s = "Weak"%string <-> s < 6).
Proof.
  unfold strength_rating.
  destruct (Z.geb_spec s 10), (Z.geb_spec s 6);
    repeat split; intros; try discriminate; try reflexivity; lia.
Qed.

(** C6, as the code has it. For every non-empty password the label follows
    from the final score alone: Strong iff [score >= 10], Moderate iff
    [6 <= score < 10], Weak iff [score < 6]; so 10 gives Strong, 6 gives
    Moderate and 5 gives Weak. *)
Theorem strength_by_score (lower : str -> str) (self : PasswordAnalyzer)
    (password : str) :
  password <> [] ->
  exists r, analyze lower self password = Ok r /\
    strength r = strength_rating (score r) /\
    (strength r = "Strong"%string <-> 10 <= score r) /\
    (strength r = "Moderate"%string <-> 6 <= score r < 10) /\
    (strength r = "Weak"%string <-> score r < 6) /\
    strength_rating 10 = "Strong"%string /\
    strength_rating 6 = "Moderate"%string /\
    strength_rating 5 = "Weak"%string.
Proof.
  intros Hne. destruct password as [|c q]; [congruence|].
  destruct (analyze_score lower self c q) as [r [Ha [_ [Hst _]]]].
  exists r. split; [exact Ha|]. split; [exact Hst|]. rewrite Hst.
  pose proof (strength_rating_spec (score r)) as (H1 & H2 & H3).
  split; [exact H1|]. split; [exact H2|]. split; [exact H3|]. repeat split.
Qed.

Lemma strength_by_score_witness :
  lit "Tr0ub4dor" <> [] /\
  exists r, analyze ascii_lower default_analyzer (lit "Tr0ub4dor") = Ok r /\
    strength r = strength_rating (score r) /\
    (strength r = "Strong"%string <-> 10 <= score r) /\
    (strength r = "Moderate"%string <-> 6 <= score r < 10) /\
    (strength r = "Weak"%string <-> score r < 6) /\
    strength_rating 10 = "Strong"%string /\
    strength_rating 6 = "Moderate"%string /\
    strength_rating 5 = "Weak"%string.
Proof.
  assert (H : lit "Tr0ub4dor" <> []) by (simpl; discriminate).
  split; [exact H|].
  exact (strength_by_score ascii_lower default_analyzer (lit "Tr0ub4dor") H).
Defined.

(** C6 as stated fails on the empty password: its score is 0, below 6, and
    its label is Invalid, not Weak. *)
Lemma empty_password_not_weak :
  exists r, analyze ascii_lower default_analyzer [] = Ok r /\
    score r < 6 /\ strength r = "Invalid"%string /\ strength r <> "Weak"%string.
Proof.
  eexists. split; [reflexivity|]. simpl.
  split; [lia|]. split; [reflexivity | discriminate].
Qed.

(** ** C8: flagged passwords are weak *)

(** C8. A password is flagged when its feedback holds the common-password
    warning or the pattern warning, which happens exactly when the password
    is non-empty and the common-password test or [check_patterns] succeeds.
    A flagged password is rated Weak: after the reset the score is 0 plus at
    most the entropy bonus, after the cap it is at most 2 + 2, both below 6. *)
Theorem flagged_password_is_weak (lower : str -> str) (self : PasswordAnalyzer)
    (password : str) :
  exists r, analyze lower self password = Ok r /\
    (flagged r <->
     password <> [] /\
     (lower password ∈ common_passwords self \/ check_patterns lower password = true)) /\
    (flagged r -> strength r = "Weak"%string /\ score r <= 4).
Proof.
  destruct password as [|c q].
  - eexists. split; [reflexivity|]. unfold flagged. cbn [feedback In].
    split; [split|].
    + intros [[H|[]] | [H|[]]]; discriminate H.
    + intros [H _]. congruence.
    + intros [[H|[]] | [H|[]]]; discriminate H.
  - destruct (analyze_score lower self c q) as [r [Ha [_ [Hst Hs]]]].
    destruct (analyze_flagged lower self c q r Ha) as [Hc Hp].
    exists r. split; [exact Ha|].
    assert (Hiff : flagged r <->
                   lower (c :: q) ∈ common_passwords self \/
                   check_patterns lower (c :: q) = true).
    { unfold flagged. rewrite Hc, Hp.
      destruct (decide (lower (c :: q) ∈ common_passwords self)); tauto. }
    split; [rewrite Hiff; split; [intros H; split; [discriminate | exact H] | tauto]|].
    intros Hflag. apply Hiff in Hflag.
    assert (Hle : score r <= 4).
    { rewrite Hs. destruct Hflag as [Hin | Hpat].
      - rewrite bool_decide_true by exact Hin.
        destruct (entropy r >=? ENTROPY_THRESHOLD_STRONG); lia.
      - rewrite Hpat.
        destruct (bool_decide _), (entropy r >=? ENTROPY_THRESHOLD_STRONG); lia. }
    split; [|exact Hle]. rewrite Hst.
    apply (strength_rating_spec (score r)). lia.
Qed.

Lemma flagged_password_is_weak_witness :
  exists r, analyze ascii_lower default_analyzer (lit "letmein") = Ok r /\
    flagged r /\ strength r = "Weak"%string /\ score r <= 4.
Proof.
  destruct (flagged_password_is_weak ascii_lower default_analyzer (lit "letmein"))
    as (r & Ha & Hiff & Hweak).
  assert (Hflag : flagged r).
  { apply Hiff. split; [simpl; discriminate | left; vm_compute; reflexivity]. }
  exists r. split; [exact Ha|]. split; [exact Hflag | exact (Hweak Hflag)].
Defined.

(** ** C9: determinism *)

(** C9. [analyze] is deterministic. Take two stores in which [CHARSET_SIZES]
    is the dict that the module binds and [self.common_passwords] is the same
    set; the list objects of the two stores are arbitrary, so the second
    store can be the one that the first call, and whatever the caller did
    with its result, left behind. Then both calls of [analyze] on the same
    password return, and return dicts with the same value [r]: the same
    strength, score and entropy, and the same feedback lines in the same
    order. Each call puts its feedback in a list object of its own, at an
    address that was free, and leaves [CHARSET_SIZES], the set of common
    passwords and every list object that existed as they were. The value [r]
    is the one that [analyze], read as a function of the password and the
    set, gives. *)
Theorem analyze_deterministic (lower : str -> str) (password : str) (st1 st2 : store) :
  dict_CHARSET_SIZES st1 = CHARSET_SIZES ->
  dict_CHARSET_SIZES st2 = CHARSET_SIZES ->
  self_common_passwords st1 = self_common_passwords st2 ->
  exists st1' o1 st2' o2 r,
    analyze_m lower password st1 = (st1', Ok o1) /\
    analyze_m lower password st2 = (st2', Ok o2) /\
    contents st1' o1 = Some r /\ contents st2' o2 = Some r /\
    list_objects st1 !! o_feedback o1 = None /\
    list_objects st2 !! o_feedback o2 = None /\
    unchanged st1 st1' /\ unchanged st2 st2' /\
    analyze lower {| common_passwords := self_common_passwords st1 |} password = Ok r.
Proof.
  intros Hd1 Hd2 Hset.
  destruct (analyze_m_spec lower password st1 Hd1) as (r & Ha & H1).
  destruct (analyze_m_spec lower password st2 Hd2) as (r' & Ha' & H2).
  rewrite <- Hset, Ha in Ha'. injection Ha' as <-.
  eexists _, _, _, _, r.
  split; [exact H1|]. split; [exact H2|].
  split; [apply contents_returned|]. split; [apply contents_returned|].
  split; [apply lookup_ge_None_2; cbn; lia|].
  split; [apply lookup_ge_None_2; cbn; lia|].
  split; [apply unchanged_new_list|]. split; [apply unchanged_new_list|].
  exact Ha.
Qed.

Lemma analyze_deterministic_witness :
  let st1 := module_store (common_passwords default_analyzer) in
  let st2 := fst (analyze_m ascii_lower (lit "abc12345") st1) in
  dict_CHARSET_SIZES st1 = CHARSET_SIZES /\
  dict_CHARSET_SIZES st2 = CHARSET_SIZES /\
  self_common_passwords st1 = self_common_passwords st2 /\
  exists st1' o1 st2' o2 r,
    analyze_m ascii_lower (lit "abc12345") st1 = (st1', Ok o1) /\
    analyze_m ascii_lower (lit "abc12345") st2 = (st2', Ok o2) /\
    contents st1' o1 = Some r /\ contents st2' o2 = Some r /\
    list_objects st1 !! o_feedback o1 = None /\
    list_objects st2 !! o_feedback o2 = None /\
    unchanged st1 st1' /\ unchanged st2 st2' /\
    analyze ascii_lower {| common_passwords := self_common_passwords st1 |}
      (lit "abc12345") = Ok r.
Proof.
  intros st1 st2.
  assert (Hd1 : dict_CHARSET_SIZES st1 = CHARSET_SIZES) by reflexivity.
  assert (Hd2 : dict_CHARSET_SIZES st2 = CHARSET_SIZES) by (vm_compute; reflexivity).
  assert (Hset : self_common_passwords st1 = self_common_passwords st2)
    by (vm_compute; reflexivity).
  split; [exact Hd1|]. split; [exact Hd2|]. split; [exact Hset|].
  exact (analyze_deterministic ascii_lower (lit "abc12345") st1 st2 Hd1 Hd2 Hset).
Defined.

(** ** C3: loading the common passwords *)

(** C3, as the code has it. [_load_common_passwords] never raises. When
    [Path.exists] answers that the file is absent it logs one warning and
    returns the built-in set ["password"], ["123456"], ["qwerty"],
    ["admin123"], ["letmein"]. When looking the file up raises, or the file
    exists and reading it raises, it logs one error, with the text of the
    exception, and returns the empty set. *)
Theorem load_fails_softly (lower strip : str -> str) (fs : filesystem)
    (file_path : str) :
  (exists s, snd (_load_common_passwords lower strip fs file_path) = Ok s) /\
  (path_exists fs file_path = Ok false ->
   _load_common_passwords lower strip fs file_path =
   ([(WARNING, "Common passwords file not found. Using minimal set."%string)],
    Ok {[ lit "password"; lit "123456"; lit "qwerty"; lit "admin123"; lit "letmein" ]})) /\
  (forall e,
      path_exists fs file_path = Raise e ->
      _load_common_passwords lower strip fs file_path =
      ([(ERROR, "Error loading common passwords: " +:+ exn_str e)], Ok ∅)) /\
  (forall e,
      path_exists fs file_path = Ok true ->
      read_lines fs file_path = Raise e ->
      _load_common_passwords lower strip fs file_path =
      ([(ERROR, "Error loading common passwords: " +:+ exn_str e)], Ok ∅)).
Proof.
  unfold _load_common_passwords, load_attempt, try_except.
  split; [|split; [|split]].
  - destruct (path_exists fs file_path) as [[|]|];
      [destruct (read_lines fs file_path)| |]; eexists; reflexivity.
  - intros ->. reflexivity.
  - intros e ->. reflexivity.
  - intros e -> ->. reflexivity.
Qed.

Lemma load_fails_softly_witness :
  path_exists no_files (lit "common_passwords.txt") = Ok false /\
  _load_common_passwords ascii_lower ascii_strip no_files (lit "common_passwords.txt") =
  ([(WARNING, "Common passwords file not found. Using minimal set."%string)],
   Ok {[ lit "password"; lit "123456"; lit "qwerty"; lit "admin123"; lit "letmein" ]}).
Proof.
  split; [reflexivity|].
  exact (proj1 (proj2 (load_fails_softly ascii_lower ascii_strip no_files
                         (lit "common_passwords.txt"))) eq_refl).
Defined.

(** C3 as stated fails twice. On a file that exists and cannot be read the
    loader logs at the error level, not a warning, and returns the empty
    set, in which ["password"] is not; and so it does when the file cannot
    even be looked up. *)
Lemma load_unreadable_is_empty :
  (path_exists locked_file (lit "common_passwords.txt") = Ok true /\
   read_lines locked_file (lit "common_passwords.txt") =
     Raise (OSError "[Errno 13] Permission denied") /\
   exists s,
     _load_common_passwords ascii_lower ascii_strip locked_file
       (lit "common_passwords.txt") =
     ([(ERROR, "Error loading common passwords: [Errno 13] Permission denied"%string)],
      Ok s) /\
     s = ∅ /\ lit "password" ∉ s) /\
  (path_exists closed_directory (lit "common_passwords.txt") =
     Raise (OSError "[Errno 13] Permission denied") /\
   exists s,
     _load_common_passwords ascii_lower ascii_strip closed_directory
       (lit "common_passwords.txt") =
     ([(ERROR, "Error loading common passwords: [Errno 13] Permission denied"%string)],
      Ok s) /\
     s = ∅ /\ lit "password" ∉ s).
Proof.
  split.
  - split; [reflexivity|]. split; [reflexivity|].
    exists ∅. split; [reflexivity|]. split; [reflexivity|]. apply not_elem_of_empty.
  - split; [reflexivity|].
    exists ∅. split; [reflexivity|]. split; [reflexivity|]. apply not_elem_of_empty.
Qed.

(** * Further properties *)

(** ** Bounds on the entropy *)

Lemma len_cons c (q : str) : len (c :: q) = 1 + len q.
Proof. unfold len. cbn [length]. lia. Qed.

(** The entropy of a non-empty password lies between 3.25 and 6.59 bits per
    character. *)
Lemma entropy_per_character p e :
  p <> [] -> calculate_entropy p = Ok e ->
  325 * len p <= e <= 659 * len p.
Proof.
  intros Hne He. destruct p as [|c q]; [congruence|].
  destruct (calculate_entropy_total (c :: q)) as [e' [He' [_ Hr]]].
  rewrite He in He'. injection He' as <-.
  pose proof (alphabet_size_pos c q) as Hlo.
  destruct (Z.eqb_spec (alphabet_size (c :: q)) 0) as [?|_]; [lia|].
  destruct Hr as (l & _ & Hin & ->).
  assert (Hn1 : 1 <= len (c :: q)) by (rewrite len_cons; pose proof (len_nonneg q); lia).
  apply (tabulated_entropy _ l _ Hin (len_nonneg (c :: q))). exact Hn1.
Qed.

(** X1. The entropy estimate of a non-empty password lies between 3.25 and
    6.59 bits per character: the alphabet in use has between 10 and 94
    symbols. *)
Theorem entropy_between_3_and_7_bits (password : str) :
  password <> [] ->
  exists e, calculate_entropy password = Ok e /\
    325 * len password <= e <= 659 * len password.
Proof.
  intros Hne. destruct (calculate_entropy_total password) as [e [He _]].
  exists e. split; [exact He|]. now apply entropy_per_character.
Qed.

Lemma entropy_between_3_and_7_bits_witness :
  lit "abcdefgh" <> [] /\
  exists e, calculate_entropy (lit "abcdefgh") = Ok e /\
    325 * len (lit "abcdefgh") <= e <= 659 * len (lit "abcdefgh").
Proof.
  assert (H : lit "abcdefgh" <> []) by (simpl; discriminate).
  split; [exact H|]. exact (entropy_between_3_and_7_bits (lit "abcdefgh") H).
Defined.

Lemma analyze_entropy lower self c q r :
  analyze lower self (c :: q) = Ok r ->
  calculate_entropy (c :: q) = Ok (entropy r) /\
  feedback r =
    fst (entropy_checks (entropy r)
           (common_and_pattern_checks lower self (c :: q)
              (character_type_checks (c :: q) (length_checks (c :: q) ([], 0))))).
Proof.
  destruct (analyze_cons lower self c q) as [e [He [_ Ha]]].
  rewrite Ha. intros [= <-]. cbn [entropy feedback]. split; [exact He | reflexivity].
Qed.

Lemma entropy_checks_low e st :
  e < ENTROPY_THRESHOLD_WEAK ->
  In "Low entropy; use a longer or more complex password."%string
     (fst (entropy_checks e st)).
Proof.
  intros He. unfold entropy_checks. cbv zeta.
  destruct (Z.ltb_spec e ENTROPY_THRESHOLD_WEAK); [|lia].
  apply in_append. now right.
Qed.

Lemma entropy_checks_high e st :
  ENTROPY_THRESHOLD_STRONG <= e ->
  In "High entropy: Excellent brute-force resistance!"%string
     (fst (entropy_checks e st)).
Proof.
  intros He. unfold entropy_checks. cbv zeta.
  unfold ENTROPY_THRESHOLD_WEAK, ENTROPY_THRESHOLD_STRONG in *.
  destruct (Z.ltb_spec e 5000); [lia|].
  destruct (Z.geb_spec e 8000); [|lia].
  rewrite in_set_score. apply in_append. now right.
Qed.

(** ** Length and rating *)

(** X2. A non-empty password shorter than [MIN_LENGTH] is always rated Weak:
    it scores at most 5, its entropy is below 50 bits and the feedback
    carries the low-entropy line. *)
Theorem short_password_is_weak (lower : str -> str) (self : PasswordAnalyzer)
    (password : str) :
  password <> [] ->
  len password < MIN_LENGTH ->
  exists r, analyze lower self password = Ok r /\
    strength r = "Weak"%string /\ score r <= 5 /\
    entropy r < ENTROPY_THRESHOLD_WEAK /\
    In "Low entropy; use a longer or more complex password."%string (feedback r).
Proof.
  intros Hne Hlen. destruct password as [|c q]; [congruence|].
  destruct (analyze_score lower self c q) as [r [Ha [He [Hst Hs]]]].
  destruct (analyze_entropy lower self c q r Ha) as [_ Hfb].
  pose proof (entropy_per_character (c :: q) (entropy r) Hne He) as Hbits.
  unfold MIN_LENGTH, ENTROPY_THRESHOLD_WEAK, ENTROPY_THRESHOLD_STRONG in *.
  assert (Hlow : entropy r < 5000) by lia.
  assert (Hsc : score r <= 5).
  { rewrite Hs, snd_character_type_checks, snd_length_checks. cbn [snd].
    unfold MIN_LENGTH. destruct (Z.ltb_spec (len (c :: q)) 8); [|lia].
    destruct (Z.geb_spec (entropy r) 8000); [lia|].
    repeat case_match; lia. }
  exists r. split; [exact Ha|]. split.
  - rewrite Hst. apply (strength_rating_spec (score r)). lia.
  - split; [exact Hsc|]. split; [exact Hlow|].
    rewrite Hfb. now apply entropy_checks_low.
Qed.

Lemma short_password_is_weak_witness :
  lit "Ab1!xyz" <> [] /\
  len (lit "Ab1!xyz") < MIN_LENGTH /\
  exists r, analyze ascii_lower default_analyzer (lit "Ab1!xyz") = Ok r /\
    strength r = "Weak"%string /\ score r <= 5 /\
    entropy r < ENTROPY_THRESHOLD_WEAK /\
    In "Low entropy; use a longer or more complex password."%string (feedback r).
Proof.
  assert (H1 : lit "Ab1!xyz" <> []) by (simpl; discriminate).
  assert (H2 : len (lit "Ab1!xyz") < MIN_LENGTH) by (vm_compute; reflexivity).
  split; [exact H1|]. split; [exact H2|].
  exact (short_password_is_weak ascii_lower default_analyzer (lit "Ab1!xyz") H1 H2).
Defined.

(** X3. A password of at most 12 characters never earns the entropy bonus:
    its entropy is below 80 bits, its score is at most 8 and it is never
    rated Strong. *)
Theorem no_bonus_up_to_12 (lower : str -> str) (self : PasswordAnalyzer)
    (password : str) :
  len password <= 12 ->
  exists r, analyze lower self password = Ok r /\
    entropy r < ENTROPY_THRESHOLD_STRONG /\ score r <= 8 /\
    strength r <> "Strong"%string.
Proof.
  intros Hlen. destruct password as [|c q].
  - eexists. split; [reflexivity|]. cbn. unfold ENTROPY_THRESHOLD_STRONG.
    split; [lia|]. split; [lia | discriminate].
  - destruct (analyze_score lower self c q) as [r [Ha [He [Hst Hs]]]].
    pose proof (entropy_per_character (c :: q) (entropy r) ltac:(discriminate) He) as Hbits.
    unfold ENTROPY_THRESHOLD_STRONG in *.
    assert (Hno : entropy r < 8000) by lia.
    assert (Hsc : score r <= 8).
    { rewrite Hs. pose proof (base_score_bounds (c :: q)).
      destruct (Z.geb_spec (entropy r) 8000); [lia|].
      repeat case_match; lia. }
    exists r. split; [exact Ha|]. split; [exact Hno|]. split; [exact Hsc|].
    rewrite Hst. intros Hstrong. apply (strength_rating_spec (score r)) in Hstrong. lia.
Qed.

Lemma no_bonus_up_to_12_witness :
  len (lit "Xk7#mQ9$vL2&") <= 12 /\
  exists r, analyze ascii_lower default_analyzer (lit "Xk7#mQ9$vL2&") = Ok r /\
    entropy r < ENTROPY_THRESHOLD_STRONG /\ score r <= 8 /\
    strength r <> "Strong"%string.
Proof.
  assert (H : len (lit "Xk7#mQ9$vL2&") <= 12) by (vm_compute; discriminate).
  split; [exact H|].
  exact (no_bonus_up_to_12 ascii_lower default_analyzer (lit "Xk7#mQ9$vL2&") H).
Defined.

(** X4. A password of at least 25 characters always earns the entropy
    bonus, whatever its characters: its entropy is at least 80 bits, the
    feedback carries the high-entropy line and the score is at least 2. *)

Theorem bonus_from_25 (lower : str -> str) (self : PasswordAnalyzer)
    (password : str) :
  25 <= len password ->
  exists r, analyze lower self password = Ok r /\
    ENTROPY_THRESHOLD_STRONG <= entropy r /\ 2 <= score r /\
    In "High entropy: Excellent brute-force resistance!"%string (feedback r).
Proof.
  intros Hlen. destruct password as [|c q]; [unfold len in Hlen; simpl in Hlen; lia|].
  destruct (analyze_score lower self c q) as [r [Ha [He [Hst Hs]]]].
  destruct (analyze_entropy lower self c q r Ha) as [_ Hfb].
  pose proof (entropy_per_character (c :: q) (entropy r) ltac:(discriminate) He) as Hbits.
  unfold ENTROPY_THRESHOLD_STRONG in *.
  assert (Hyes : 8000 <= entropy r) by lia.
  exists r. split; [exact Ha|]. split; [exact Hyes|]. split.
  - rewrite Hs. pose proof (base_score_bounds (c :: q)).
    destruct (Z.geb_spec (entropy r) 8000); [|lia].
    repeat case_match; lia.
  - rewrite Hfb. now apply entropy_checks_high.
Qed.

Lemma bonus_from_25_witness :
  25 <= len (lit "1234567890123456789012345") /\
  exists r,
    analyze ascii_lower default_analyzer (lit "1234567890123456789012345") = Ok r /\
    ENTROPY_THRESHOLD_STRONG <= entropy r /\ 2 <= score r /\
    In "High entropy: Excellent brute-force resistance!"%string (feedback r).
Proof.
  assert (H : 25 <= len (lit "1234567890123456789012345"))
    by (vm_compute; discriminate).
  split; [exact H|].
  exact (bonus_from_25 ascii_lower default_analyzer
           (lit "1234567890123456789012345") H).
Defined.

(** X5. A common password of at most 12 characters scores exactly 0: the
    reset is final, since the entropy bonus is out of reach. *)
Theorem short_common_password_scores_0 (lower : str -> str) (self : PasswordAnalyzer)
    (password : str) :
  lower password ∈ common_passwords self ->
  len password <= 12 ->
  exists r, analyze lower self password = Ok r /\ score r = 0.
Proof.
  intros Hin Hlen. destruct password as [|c q].
  - eexists. split; reflexivity.
  - destruct (analyze_score lower self c q) as [r [Ha [He [_ Hs]]]].
    pose proof (entropy_per_character (c :: q) (entropy r) ltac:(discriminate) He) as Hbits.
    exists r. split; [exact Ha|]. rewrite Hs.
    rewrite bool_decide_true by exact Hin.
    unfold ENTROPY_THRESHOLD_STRONG.
    destruct (Z.geb_spec (entropy r) 8000); lia.
Qed.

Lemma short_common_password_scores_0_witness :
  ascii_lower (lit "QWERTY") ∈ common_passwords default_analyzer /\
  len (lit "QWERTY") <= 12 /\
  exists r, analyze ascii_lower default_analyzer (lit "QWERTY") = Ok r /\ score r = 0.
Proof.
  assert (H1 : ascii_lower (lit "QWERTY") ∈ common_passwords default_analyzer)
    by (vm_compute; reflexivity).
  assert (H2 : len (lit "QWERTY") <= 12) by (vm_compute; discriminate).
  split; [exact H1|]. split; [exact H2|].
  exact (short_common_password_scores_0 ascii_lower default_analyzer
           (lit "QWERTY") H1 H2).
Defined.

Lemma four_classes_alphabet p :
  existsb is_lowercase p = true -> existsb is_uppercase p = true ->
  existsb is_digit p = true -> existsb is_special p = true ->
  alphabet_size p = 94.
Proof. intros H1 H2 H3 H4. unfold alphabet_size. now rewrite H1, H2, H3, H4. Qed.

(** X6. A password is rated Strong exactly when it has at least 13
    characters, shows all four character classes, is not a common password
    and has no predictable pattern. *)
Theorem strong_iff (lower : str -> str) (self : PasswordAnalyzer) (password : str) :
  exists r, analyze lower self password = Ok r /\
    (strength r = "Strong"%string <->
     13 <= len password /\
     existsb is_lowercase password = true /\
     existsb is_uppercase password = true /\
     existsb is_digit password = true /\
     existsb is_special password = true /\
     (lower password ∉ common_passwords self) /\
     check_patterns lower password = false).
Proof.
  destruct password as [|c q].
  - eexists. split; [reflexivity|]. cbn. split; [discriminate | lia].
  - destruct (analyze_score lower self c q) as [r [Ha [He [Hst Hs]]]].
    exists r. split; [exact Ha|]. rewrite Hst.
    destruct (strength_rating_spec (score r)) as [-> _].
    pose proof (entropy_per_character (c :: q) (entropy r) ltac:(discriminate) He) as Hbits.
    destruct (calculate_entropy_total (c :: q)) as [e [He' [_ Hr]]].
    rewrite He in He'. injection He' as <-.
    rewrite snd_character_type_checks, snd_length_checks in Hs. cbn [snd] in Hs.
    unfold MIN_LENGTH, RECOMMENDED_LENGTH, ENTROPY_THRESHOLD_STRONG in *.
    pose proof (len_nonneg (c :: q)) as Hn.
    split.
    + intros Hscore.
      destruct (bool_decide_reflect (lower (c :: q) ∈ common_passwords self)) as [?|Hnot];
        [destruct (entropy r >=? 8000); lia|].
      destruct (check_patterns lower (c :: q));
        [destruct (entropy r >=? 8000); lia|].
      destruct (Z.geb_spec (entropy r) 8000) as [Hbonus|?];
        [|repeat case_match; lia].
      assert (13 <= len (c :: q)) by lia.
      destruct (existsb is_lowercase (c :: q)), (existsb is_uppercase (c :: q)),
        (existsb is_digit (c :: q)), (existsb is_special (c :: q));
        repeat split; try reflexivity; try assumption;
        exfalso; repeat case_match; lia.
    + intros (Hlen & Hl & Hu & Hd & Hsp & Hnot & Hpat).
      rewrite Hs, Hl, Hu, Hd, Hsp, Hpat. rewrite bool_decide_false by exact Hnot.
      rewrite (four_classes_alphabet _ Hl Hu Hd Hsp) in Hr. cbn [Z.eqb] in Hr.
      destruct Hr as (l & _ & Hin & Hel).
      pose proof (entropy_94 l (len (c :: q)) Hin Hlen) as H94.
      rewrite <- Hel in H94.
      destruct (Z.ltb_spec (len (c :: q)) 8); [lia|].
      destruct (Z.geb_spec (len (c :: q)) 12); [|lia].
      destruct (Z.geb_spec (entropy r) 8000); lia.
Qed.

(** X7. Adding entries to the set of common passwords never raises a
    score, and leaves the entropy as it is. *)
Theorem common_set_monotone (lower : str -> str) (self1 self2 : PasswordAnalyzer)
    (password : str) :
  common_passwords self1 ⊆ common_passwords self2 ->
  exists r1 r2,
    analyze lower self1 password = Ok r1 /\
    analyze lower self2 password = Ok r2 /\
    entropy r2 = entropy r1 /\ score r2 <= score r1.
Proof.
  intros Hsub. destruct password as [|c q].
  - do 2 eexists. split; [reflexivity|]. split; [reflexivity|]. cbn. lia.
  - destruct (analyze_score lower self1 c q) as [r1 [Ha1 [He1 [_ Hs1]]]].
    destruct (analyze_score lower self2 c q) as [r2 [Ha2 [He2 [_ Hs2]]]].
    exists r1, r2. split; [exact Ha1|]. split; [exact Ha2|].
    assert (Hent : entropy r2 = entropy r1) by congruence.
    split; [exact Hent|]. rewrite Hs1, Hs2, Hent.
    pose proof (base_score_bounds (c :: q)).
    destruct (bool_decide_reflect (lower (c :: q) ∈ common_passwords self1)) as [H1|H1],
      (bool_decide_reflect (lower (c :: q) ∈ common_passwords self2)) as [H2|H2];
      try (exfalso; apply H2, Hsub, H1); repeat case_match; lia.
Qed.

Lemma common_set_monotone_witness :
  common_passwords default_analyzer ⊆
    common_passwords default_analyzer ∪ common_passwords phrase_analyzer /\
  exists r1 r2,
    analyze ascii_lower default_analyzer (lit "correcthorsebatterystaple") = Ok r1 /\
    analyze ascii_lower
      {| common_passwords :=
           common_passwords default_analyzer ∪ common_passwords phrase_analyzer |}
      (lit "correcthorsebatterystaple") = Ok r2 /\
    entropy r2 = entropy r1 /\ score r2 <= score r1.
Proof.
  assert (H : common_passwords default_analyzer ⊆
              common_passwords default_analyzer ∪ common_passwords phrase_analyzer)
    by apply union_subseteq_l.
  split; [exact H|].
  exact (common_set_monotone ascii_lower default_analyzer
           {| common_passwords :=
                common_passwords default_analyzer ∪ common_passwords phrase_analyzer |}
           (lit "correcthorsebatterystaple") H).
Defined.

(** X8. The feedback never holds both warnings, and a common password
    never gets the pattern warning, even when it has a pattern. *)
Theorem warnings_exclusive (lower : str -> str) (self : PasswordAnalyzer)
    (password : str) :
  exists r, analyze lower self password = Ok r /\
    ~ (In common_warning (feedback r) /\ In pattern_warning (feedback r)) /\
    (lower password ∈ common_passwords self -> ~ In pattern_warning (feedback r)).
Proof.
  destruct password as [|c q].
  - eexists. split; [reflexivity|]. cbn [feedback In]. split.
    + intros [[H|[]] _]. discriminate H.
    + intros _ [H|[]]. discriminate H.
  - destruct (analyze_cons lower self c q) as [e [_ [_ Ha]]].
    eexists. split; [exact Ha|].
    match goal with |- context [feedback ?x] => set (r := x) in * end.
    destruct (analyze_flagged lower self c q r Ha) as [Hc Hp].
    rewrite Hc, Hp. tauto.
Qed.

(** ** The loader on a readable file *)

Lemma load_readable lower strip fs file_path lines :
  path_exists fs file_path = Ok true ->
  read_lines fs file_path = Ok lines ->
  _load_common_passwords lower strip fs file_path =
  ([], Ok (list_to_set
             (map (fun line => lower (strip line))
                  (filter (fun line => strip line <> []) lines)))).
Proof.
  intros Hex Hread.
  unfold _load_common_passwords, load_attempt, try_except.
  now rewrite Hex, Hread.
Qed.

Lemma elem_of_loaded (lower strip : str -> str) (lines : list str) (s : str) :
  s ∈ (list_to_set (map (fun line => lower (strip line))
                        (filter (fun line => strip line <> []) lines)) : gset str) <->
  exists line, In line lines /\ strip line <> [] /\ s = lower (strip line).
Proof.
  rewrite elem_of_list_to_set, list_elem_of_In, in_map_iff. split.
  - intros [line [<- Hin]]. apply list_elem_of_In, list_elem_of_filter in Hin.
    destruct Hin as [Hne Hin]. exists line.
    split; [now apply list_elem_of_In|]. split; [exact Hne | reflexivity].
  - intros [line [Hin [Hne ->]]]. exists line. split; [reflexivity|].
    apply list_elem_of_In, list_elem_of_filter. split; [exact Hne|].
    now apply list_elem_of_In.
Qed.

(** X9. On a readable file the loader logs nothing and returns exactly the
    lower-cased, stripped lines that are not blank. *)
Theorem load_entries (lower strip : str -> str) (fs : filesystem)
    (file_path : str) (lines : list str) :
  path_exists fs file_path = Ok true ->
  read_lines fs file_path = Ok lines ->
  exists loaded,
    _load_common_passwords lower strip fs file_path = ([], Ok loaded) /\
    forall s, s ∈ loaded <->
              exists line, In line lines /\ strip line <> [] /\ s = lower (strip line).
Proof.
  intros Hex Hread. eexists. split; [exact (load_readable _ _ _ _ _ Hex Hread)|].
  intros s. apply elem_of_loaded.
Qed.

Lemma load_entries_witness :
  path_exists phrase_file (lit "common_passwords.txt") = Ok true /\
  read_lines phrase_file (lit "common_passwords.txt") =
    Ok [lit "CorrectHorseBatteryStaple" ++ [LF]] /\
  exists loaded,
    _load_common_passwords ascii_lower ascii_strip phrase_file
      (lit "common_passwords.txt") = ([], Ok loaded) /\
    forall s, s ∈ loaded <->
              exists line, In line [lit "CorrectHorseBatteryStaple" ++ [LF]] /\
                           ascii_strip line <> [] /\
                           s = ascii_lower (ascii_strip line).
Proof.
  split; [reflexivity|]. split; [reflexivity|].
  exact (load_entries ascii_lower ascii_strip phrase_file
           (lit "common_passwords.txt") _ eq_refl eq_refl).
Defined.

(** X10. Two readable files with the same non-blank lines load the same set:
    the order of the lines, repeated lines and blank lines make no
    difference. *)

Theorem load_same_lines (lower strip : str -> str) (fs1 fs2 : filesystem)
    (file1 file2 : str) (lines1 lines2 : list str) :
  path_exists fs1 file1 = Ok true -> read_lines fs1 file1 = Ok lines1 ->
  path_exists fs2 file2 = Ok true -> read_lines fs2 file2 = Ok lines2 ->
  (forall line, strip line <> [] -> (In line lines1 <-> In line lines2)) ->
  _load_common_passwords lower strip fs1 file1 =
  _load_common_passwords lower strip fs2 file2.
Proof.
  intros Hex1 Hr1 Hex2 Hr2 Hsame.
  rewrite (load_readable _ _ _ _ _ Hex1 Hr1), (load_readable _ _ _ _ _ Hex2 Hr2).
  do 2 f_equal. apply set_eq. intros s. rewrite !elem_of_loaded.
  split; intros [line [Hin [Hne ->]]]; exists line;
    (split; [now apply (Hsame line Hne) | split; [exact Hne | reflexivity]]).
Qed.

Lemma load_same_lines_witness :
  _load_common_passwords ascii_lower ascii_strip phrase_file
    (lit "common_passwords.txt") =
  _load_common_passwords ascii_lower ascii_strip noisy_phrase_file
    (lit "common_passwords.txt").
Proof.
  apply (load_same_lines ascii_lower ascii_strip phrase_file noisy_phrase_file
           (lit "common_passwords.txt") (lit "common_passwords.txt")
           [lit "CorrectHorseBatteryStaple" ++ [LF]]
           [[LF]; lit "CorrectHorseBatteryStaple" ++ [LF]; [32%N; LF];
            lit "CorrectHorseBatteryStaple" ++ [LF]]);
    try reflexivity.
  intros line Hne. simpl. split.
  - intros [<- | []]. right. now left.
  - intros [<- | [<- | [<- | [<- | []]]]];
      solve [now left | exfalso; apply Hne; reflexivity].
Defined.

(** X11. Loading and analysing compose: every non-blank line of a readable
    file, stripped, is a password that the analyzer built from that file
    flags as common, scores at most 2 and rates Weak. *)

Theorem listed_password_is_flagged (lower strip : str -> str) (fs : filesystem)
    (file_path : str) (lines : list str) (line : str) :
  path_exists fs file_path = Ok true ->
  read_lines fs file_path = Ok lines ->
  In line lines ->
  strip line <> [] ->
  exists self r,
    init lower strip fs file_path = ([], Ok self) /\
    analyze lower self (strip line) = Ok r /\
    In common_warning (feedback r) /\
    score r <= 2 /\ strength r = "Weak"%string.
Proof.
  intros Hex Hread Hin Hne.
  unfold init. rewrite (load_readable _ _ _ _ _ Hex Hread). cbn [bind].
  eexists. 
  set (self := {| common_passwords := _ |}).
  assert (Hmem : lower (strip line) ∈ common_passwords self).
  { apply elem_of_loaded. exists line. split; [exact Hin|]. split; [exact Hne | reflexivity]. }
  destruct (strip line) as [|c q] eqn:Hs; [congruence|].
  destruct (analyze_score lower self c q) as [r [Ha [_ [Hst Hsc]]]].
  exists r. split; [reflexivity|]. split; [exact Ha|].
  rewrite bool_decide_true in Hsc by exact Hmem.
  assert (Hle : score r <= 2) by (rewrite Hsc; case_match; lia).
  split; [apply (analyze_flagged lower self c q r Ha); exact Hmem|].
  split; [exact Hle|]. rewrite Hst. apply (strength_rating_spec (score r)). lia.
Qed.

Lemma listed_password_is_flagged_witness :
  exists self r,
    init ascii_lower ascii_strip phrase_file (lit "common_passwords.txt") =
      ([], Ok self) /\
    analyze ascii_lower self
      (ascii_strip (lit "CorrectHorseBatteryStaple" ++ [LF])) = Ok r /\
    In common_warning (feedback r) /\
    score r <= 2 /\ strength r = "Weak"%string.
Proof.
  apply (listed_password_is_flagged ascii_lower ascii_strip phrase_file
           (lit "common_passwords.txt")
           [lit "CorrectHorseBatteryStaple" ++ [LF]]
           (lit "CorrectHorseBatteryStaple" ++ [LF]));
    [reflexivity | reflexivity | now left | vm_compute; discriminate].
Defined.

(** ** check_patterns *)

(** X12. [check_patterns] answers True exactly when the password holds
    three equal characters in a row, other than line feeds, or its
    lower-casing holds ["abc"], ["123"], ["qwe"] or ["asdf"]. *)
Theorem check_patterns_iff (lower : str -> str) (password : str) :
  check_patterns lower password = true <->
  (exists c, c <> LF /\ contains [c; c; c] password) \/
  (exists sub, In sub [lit "abc"; lit "123"; lit "qwe"; lit "asdf"] /\
               contains sub (lower password)).
Proof. apply check_patterns_spec. Qed.

Lemma contains_repeat (c d : N) (n : nat) (sub : str) :
  contains sub (repeat c n) -> In d sub -> d = c.
Proof.
  intros [pre [post H]] Hin.
  assert (Hd : In d (repeat c n)).
  { rewrite H. apply in_or_app. right. apply in_or_app. now left. }
  now apply repeat_spec in Hd.
Qed.

(** X13. A password made of line feeds only, however long, is never
    reported as a pattern: [.] does not match the line feed. *)
Theorem line_feed_run_undetected (lower : str -> str) (n : nat) :
  lower (repeat LF n) = repeat LF n ->
  check_patterns lower (repeat LF n) = false.
Proof.
  intros Hlow. destruct (check_patterns lower (repeat LF n)) eqn:Hcp; [|reflexivity].
  exfalso. apply check_patterns_spec in Hcp.
  destruct Hcp as [[c [Hc Hrun]] | [sub [Hin Hsub]]].
  - apply Hc. apply (contains_repeat LF c n [c; c; c] Hrun). now left.
  - rewrite Hlow in Hsub. unfold weak_substrings in Hin. simpl in Hin.
    destruct Hin as [<- | [<- | [<- | [<- | []]]]];
      match type of Hsub with
      | contains (?d :: _) _ =>
          assert (Hd : d = LF)
            by (apply (contains_repeat LF d n _ Hsub); now left);
          discriminate Hd
      end.
Qed.

Lemma line_feed_run_undetected_witness :
  ascii_lower (repeat LF 8) = repeat LF 8 /\
  check_patterns ascii_lower (repeat LF 8) = false.
Proof.
  split; [reflexivity|].
  exact (line_feed_run_undetected ascii_lower 8 eq_refl).
Defined.

(** ** Which feedback lines are highlighted *)

Lemma lit_app a b : lit (a +:+ b) = lit a ++ lit b.
Proof.
  induction a as [|c a IH]; [reflexivity|].
  change (String c a +:+ b) with (String c (a +:+ b)).
  cbn [lit app]. f_equal. exact IH.
Qed.

Lemma str_in_head c sub s : str_in (c :: sub) s = true -> In c s.
Proof.
  intros H. apply str_in_spec in H. destruct H as [pre [post ->]].
  apply in_or_app. right. now left.
Qed.

Lemma pretty_N_char_numeric x : numeric_char (N_of_ascii (pretty_N_char x)).
Proof.
  unfold pretty_N_char, numeric_char. right. right.
  repeat case_match; vm_compute; split; discriminate.
Qed.

Lemma pretty_N_go_numeric x s :
  Forall numeric_char (lit s) -> Forall numeric_char (lit (pretty_N_go x s)).
Proof.
  revert s. induction (N.lt_wf_0 x) as [x _ IH]. intros s Hs.
  destruct (N.eq_dec x 0%N) as [-> | Hne].
  - now rewrite pretty_N_go_0.
  - rewrite pretty_N_go_step by lia. apply IH.
    + apply N.div_lt; lia.
    + cbn [lit]. constructor; [apply pretty_N_char_numeric | exact Hs].
Qed.

Lemma numeric_zero : Forall numeric_char (lit "0").
Proof.
  constructor; [|constructor]. right. right. vm_compute. split; discriminate.
Qed.

Lemma pretty_Z_numeric (z : Z) : Forall numeric_char (lit (pretty z)).
Proof.
  assert (HN : forall n : N, Forall numeric_char (lit (pretty n))).
  { intros n. unfold pretty, pretty_N. case_decide.
    - exact numeric_zero.
    - apply pretty_N_go_numeric. constructor. }
  destruct z as [|p|p]; unfold pretty, pretty_Z.
  - exact numeric_zero.
  - apply (HN (Npos p)).
  - rewrite lit_app. apply Forall_app. split; [|apply (HN (Npos p))].
    constructor; [now left | constructor].
Qed.

Lemma float_str_numeric h : Forall numeric_char (lit (float_str h)).
Proof.
  unfold float_str. cbv zeta. rewrite !lit_app.
  repeat (apply Forall_app; split); try apply pretty_Z_numeric.
  - constructor; [right; now left | constructor].
  - case_match; rewrite ?lit_app; repeat (apply Forall_app; split);
      apply pretty_Z_numeric.
Qed.

Lemma marks_append line st :
  Forall marks_ok (fst st) -> marks_ok line ->
  Forall marks_ok (fst (append line st)).
Proof.
  intros Hst Hl. unfold append. cbn [fst]. apply Forall_app. split; [exact Hst|].
  now constructor.
Qed.

Lemma marks_set_score f st :
  Forall marks_ok (fst st) -> Forall marks_ok (fst (set_score f st)).
Proof. intros H. exact H. Qed.

Ltac plain_line :=
  let H := fresh "H" in
  split;
  [ intros H; vm_compute in H; discriminate H
  | intros [H|H]; vm_compute in H; discriminate H ].

Ltac warning_line :=
  split; [intros _; first [left; reflexivity | right; reflexivity]
         | intros _; vm_compute; reflexivity].

Ltac marks :=
  repeat first [assumption | apply marks_set_score | apply marks_append];
  try first [plain_line | warning_line].

Lemma marks_entropy_line e :
  marks_ok ("Password entropy: " +:+ float_str e +:+ " bits.").
Proof.
  split.
  - intros H. exfalso. apply str_in_head in H.
    rewrite !lit_app in H. apply in_app_or in H.
    destruct H as [H | H]; [vm_compute in H; intuition discriminate|].
    apply in_app_or in H.
    destruct H as [H | H]; [|vm_compute in H; intuition discriminate].
    pose proof (float_str_numeric e) as Hnum.
    rewrite Forall_forall in Hnum. apply list_elem_of_In, Hnum in H.
    destruct H as [H | [H | [H1 H2]]];
      [discriminate H | discriminate H | vm_compute in H2; now apply H2].
  - intros [H|H]; cbn [String.append] in H; discriminate H.
Qed.

Lemma marks_length_checks p st :
  Forall marks_ok (fst st) -> Forall marks_ok (fst (length_checks p st)).
Proof. intros Hst. unfold length_checks. repeat case_match; marks. Qed.

Lemma marks_character_type_checks p st :
  Forall marks_ok (fst st) -> Forall marks_ok (fst (character_type_checks p st)).
Proof.
  intros Hst. unfold character_type_checks, checks. cbn [fold_left].
  unfold character_type_check.
  destruct (re_search re_lower p), (re_search re_upper p),
    (re_search re_digit p), (re_search re_special p); marks.
Qed.

Lemma marks_common_and_pattern_checks lower self p st :
  Forall marks_ok (fst st) ->
  Forall marks_ok (fst (common_and_pattern_checks lower self p st)).
Proof. intros Hst. unfold common_and_pattern_checks. repeat case_match; marks. Qed.

Lemma marks_entropy_checks e st :
  Forall marks_ok (fst st) -> Forall marks_ok (fst (entropy_checks e st)).
Proof.
  intros Hst. unfold entropy_checks. cbv zeta.
  pose proof (marks_entropy_line e) as He.
  repeat case_match; marks.
Qed.

Lemma marks_feedback lower self p r :
  analyze lower self p = Ok r -> Forall marks_ok (feedback r).
Proof.
  destruct p as [|c q].
  - intros [= <-]. cbn [feedback]. constructor; [plain_line | constructor].
  - intros Ha. destruct (analyze_entropy lower self c q r Ha) as [_ ->].
    apply marks_entropy_checks, marks_common_and_pattern_checks,
      marks_character_type_checks, marks_length_checks. constructor.
Qed.


Lemma analyze_returns lower self p : exists r, analyze lower self p = Ok r.
Proof.
  destruct p as [|c q]; [eexists; reflexivity|].
  destruct (analyze_cons lower self c q) as [e [_ [_ Ha]]]. eexists. exact Ha.
Qed.

(** ** The console loop *)

(** X15. The loop ends at the first input that quits, the interrupt key or
    a line whose stripped lower-casing is ["q"]: what the console would
    give after it changes nothing. *)
Theorem main_stops_at_quit (lower strip : str -> str) (analyzer : PasswordAnalyzer)
    (before after : list console_input) (input : console_input) :
  quits lower strip input ->
  main_loop lower strip analyzer (before ++ input :: after) =
  main_loop lower strip analyzer (before ++ [input]).
Proof.
  intros Hq. induction before as [|i before IH].
  - cbn [app main_loop]. destruct input as [line| |e]; cbn in Hq.
    + now rewrite !bool_decide_true by exact Hq.
    + reflexivity.
    + contradiction.
  - cbn [app main_loop]. rewrite IH. reflexivity.
Qed.

Lemma main_stops_at_quit_witness :
  quits ascii_lower ascii_strip (Typed (lit " Q ")) /\
  main_loop ascii_lower ascii_strip default_analyzer
    ([Typed (lit "letmein")] ++ Typed (lit " Q ") :: [Typed (lit "qwerty")]) =
  main_loop ascii_lower ascii_strip default_analyzer
    ([Typed (lit "letmein")] ++ [Typed (lit " Q ")]).
Proof.
  assert (H : quits ascii_lower ascii_strip (Typed (lit " Q "))) by reflexivity.
  split; [exact H|].
  exact (main_stops_at_quit ascii_lower ascii_strip default_analyzer
           [Typed (lit "letmein")] [Typed (lit "qwerty")] (Typed (lit " Q ")) H).
Defined.

(** X16. As long as the console itself does not fail, the loop never logs
    and never prints its error line: no typed password makes [analyze] or
    [display_results] raise. *)

Theorem typed_passwords_never_fail (lower strip : str -> str)
    (analyzer : PasswordAnalyzer) (inputs : list console_input) :
  (forall e, ~ In (InputError e) inputs) ->
  (forall l, ~ In (Logged l) (main_loop lower strip analyzer inputs)) /\
  ~ In (Printed (PrintText "An error occurred. Please try again."
                   (Some "bold red"%string)))
       (main_loop lower strip analyzer inputs).
Proof.
  induction inputs as [|input inputs IH]; intros Hno.
  - split; [intros l []|intros []].
  - assert (Hrest : forall e, ~ In (InputError e) inputs).
    { intros e He. apply (Hno e). now right. }
    destruct (IH Hrest) as [IHl IHp].
    assert (Hshow : forall result,
               (forall l, ~ In (Logged l) (map Printed (display_results result))) /\
               ~ In (Printed (PrintText "An error occurred. Please try again."
                                (Some "bold red"%string)))
                    (map Printed (display_results result))).
    { intros result. split.
      - intros l Hin. apply in_map_iff in Hin. destruct Hin as [p [Hp _]]. discriminate Hp.
      - intros Hin. apply in_map_iff in Hin. destruct Hin as [p [Hp Hin]].
        injection Hp as ->. unfold display_results in Hin. cbv zeta in Hin.
        apply in_app_or in Hin. destruct Hin as [Hin | Hin].
        + destruct Hin as [H | [H | []]]; discriminate H.
        + apply in_app_or in Hin. destruct Hin as [Hin | Hin].
          * apply in_map_iff in Hin. destruct Hin as [item [H _]].
            injection H as _ H. destruct (string_in "WARNING" item); discriminate H.
          * destruct Hin as [H | [H | [H | [H | []]]]]; discriminate H. }
    cbn [main_loop]. destruct input as [line| |e].
    + case_bool_decide.
      * split; [intros l [Hx | [Hx | []]]; discriminate Hx
               | intros [Hx | [Hx | []]]; discriminate Hx].
      * destruct (analyze_returns lower analyzer (strip line)) as [r ->].
        destruct (Hshow r) as [Hl Hp]. split.
        -- intros l [Hx | Hin]; [discriminate Hx|].
           apply in_app_or in Hin. destruct Hin as [Hin | [Hx | Hin]];
             [exact (Hl l Hin) | discriminate Hx | exact (IHl l Hin)].
        -- intros [Hx | Hin]; [discriminate Hx|].
           apply in_app_or in Hin. destruct Hin as [Hin | [Hx | Hin]];
             [exact (Hp Hin) | discriminate Hx | exact (IHp Hin)].
    + split; [intros l [Hx | [Hx | []]]; discriminate Hx
             | intros [Hx | [Hx | []]]; discriminate Hx].
    + exfalso. apply (Hno e). now left.
Qed.

Lemma typed_passwords_never_fail_witness :
  (forall e, ~ In (InputError e) [Typed (lit "abc"); Typed []; KeyboardInterrupt]) /\
  (forall l, ~ In (Logged l)
                  (main_loop ascii_lower ascii_strip default_analyzer
                     [Typed (lit "abc"); Typed []; KeyboardInterrupt])) /\
  ~ In (Printed (PrintText "An error occurred. Please try again."
                   (Some "bold red"%string)))
       (main_loop ascii_lower ascii_strip default_analyzer
          [Typed (lit "abc"); Typed []; KeyboardInterrupt]).
Proof.
  assert (H : forall e,
             ~ In (InputError e) [Typed (lit "abc"); Typed []; KeyboardInterrupt]).
  { intros e [Hx | [Hx | [Hx | []]]]; discriminate Hx. }
  split; [exact H|].
  exact (typed_passwords_never_fail ascii_lower ascii_strip default_analyzer
           [Typed (lit "abc"); Typed []; KeyboardInterrupt] H).
Defined.

Lemma in_display_feedback result item style :
  In (PrintText ("- " +:+ item) (Some style)) (display_results result) <->
  In item (feedback result) /\
  style = (if string_in "WARNING" item then "yellow" else "white")%string.
Proof.
  unfold display_results. cbv zeta. rewrite in_app_iff, in_app_iff, in_map_iff. split.
  - intros [Hin | [[item' [Heq Hin]] | Hin]].
    + destruct Hin as [H | [H | []]]; discriminate H.
    + assert (H1 : "- " +:+ item' = "- " +:+ item) by congruence.
      apply (inj (String.append "- ")) in H1. subst item'.
      split; [exact Hin | congruence].
    + destruct Hin as [H | [H | [H | [H | []]]]]; discriminate H.
  - intros [Hin ->]. right. left. exists item. split; [reflexivity | exact Hin].
Qed.

(** X14. [display_results] prints every feedback line of [analyze] in
    yellow or in white, and the yellow ones are exactly the two warnings:
    no other line of the feedback holds the word WARNING. *)
Theorem display_highlights_warnings (lower : str -> str) (self : PasswordAnalyzer)
    (password : str) :
  exists r, analyze lower self password = Ok r /\
    forall item,
      (In (PrintText ("- " +:+ item) (Some "yellow"%string)) (display_results r) <->
       In item (feedback r) /\ (item = common_warning \/ item = pattern_warning)) /\
      (In (PrintText ("- " +:+ item) (Some "white"%string)) (display_results r) <->
       In item (feedback r) /\ item <> common_warning /\ item <> pattern_warning).
Proof.
  destruct (analyze_returns lower self password) as [r Ha].
  exists r. split; [exact Ha|]. intros item.
  pose proof (marks_feedback lower self password r Ha) as Hmarks.
  rewrite Forall_forall in Hmarks.
  rewrite !in_display_feedback. split; split.
  - intros [Hin Hst]. split; [exact Hin|].
    apply list_elem_of_In, Hmarks in Hin. apply Hin.
    destruct (string_in "WARNING" item); [reflexivity | discriminate Hst].
  - intros [Hin Hw]. split; [exact Hin|].
    pose proof Hin as Hin'. apply list_elem_of_In, Hmarks in Hin'.
    apply Hin' in Hw. now rewrite Hw.
  - intros [Hin Hst]. split; [exact Hin|].
    apply list_elem_of_In, Hmarks in Hin.
    assert (Hnot : ~ is_warning item).
    { intros Hw. apply Hin in Hw. rewrite Hw in Hst. discriminate Hst. }
    unfold is_warning in Hnot. tauto.
  - intros [Hin [H1 H2]]. split; [exact Hin|].
    pose proof Hin as Hin'. apply list_elem_of_In, Hmarks in Hin'.
    destruct (string_in "WARNING" item) eqn:Hm; [|reflexivity].
    exfalso. destruct Hin' as [Hw _]. destruct (Hw Hm); contradiction.
Qed.

(** In the model [main] always returns: the loader catches what reading the
    file raises, and the loop has a handler for the rest. *)
Lemma main_returns (lower strip : str -> str) (fs : filesystem)
    (common_passwords_file : str) (inputs : list console_input) :
  snd (main lower strip fs common_passwords_file inputs) = Ok tt.
Proof.
  unfold main, init, _load_common_passwords, load_attempt, try_except.
  destruct (path_exists fs common_passwords_file) as [[|]|]; try reflexivity.
  destruct (read_lines fs common_passwords_file); reflexivity.
Qed.

(** X17. A line that strips to nothing is analysed as the empty password:
    the loop shows the Invalid result and goes on with the next input. *)
Theorem blank_input_shows_invalid (lower strip : str -> str)
    (analyzer : PasswordAnalyzer) (line : str) (inputs : list console_input) :
  strip line = [] ->
  lower [] = [] ->
  main_loop lower strip analyzer (Typed line :: inputs) =
  Prompted "Enter password: " ::
  map Printed
    (display_results {| strength := "Invalid"; score := 0; entropy := 0;
                        feedback := ["Password cannot be empty."%string] |}) ++
  Printed (PrintText (nl +:+ string_mul "=" 40 +:+ nl) None) ::
  main_loop lower strip analyzer inputs.
Proof.
  intros Hs Hl. cbn [main_loop]. rewrite Hs, Hl.
  rewrite bool_decide_false by discriminate. reflexivity.
Qed.

Lemma blank_input_shows_invalid_witness :
  ascii_strip (lit "   ") = [] /\
  ascii_lower [] = [] /\
  main_loop ascii_lower ascii_strip default_analyzer [Typed (lit "   ")] =
  Prompted "Enter password: " ::
  map Printed
    (display_results {| strength := "Invalid"; score := 0; entropy := 0;
                        feedback := ["Password cannot be empty."%string] |}) ++
  Printed (PrintText (nl +:+ string_mul "=" 40 +:+ nl) None) ::
  main_loop ascii_lower ascii_strip default_analyzer [].
Proof.
  split; [reflexivity|]. split; [reflexivity|].
  exact (blank_input_shows_invalid ascii_lower ascii_strip default_analyzer
           (lit "   ") [] eq_refl eq_refl).
Defined.
